(** * Order-submission guard of binance-rs-async-fork

    Shallow embedding of [src/futures/utils/top_n.rs], [order_tracker.rs],
    [order_tracking_item.rs] and [expected_order_requests/*.rs]. *)

From Stdlib Require Import Sorting.Sorted.
From stdpp Require Import base gmap strings list pretty.

Set Warnings "-register-all".

(* ------------------------------------------------------------------ *)
(** ** Total orders ([std::cmp::Ord]) *)

(** The [Ord] trait: a comparison returning [Ordering]. *)
Class Ord (T : Type) := cmp : T -> T -> comparison.

(** The laws the trait documents for a total order whose [Eq] is the
    structural equality (as for the derived and hand-written impls here). *)
Class OrdLaws (T : Type) `{Ord T} : Prop := {
  cmp_eq_iff : forall x y, cmp x y = Eq <-> x = y;
  cmp_opp : forall x y, cmp y x = CompOpp (cmp x y);
  cmp_lt_trans : forall x y z, cmp x y = Lt -> cmp y z = Lt -> cmp x z = Lt
}.

(** [Ordering::then_with]. *)
Definition then_with (o : comparison) (f : unit -> comparison) : comparison :=
  match o with Eq => f tt | _ => o end.

#[export] Instance nat_Ord : Ord nat := Nat.compare.

#[export] Instance nat_OrdLaws : OrdLaws nat.
Proof.
  split.
  - intros x y. apply Nat.compare_eq_iff.
  - intros x y. apply Nat.compare_antisym.
  - intros x y z. unfold cmp, nat_Ord.
    rewrite !Nat.compare_lt_iff. lia.
Qed.

(* ------------------------------------------------------------------ *)
(** ** [TopNEntry<T>] (top_n.rs, lines 9-40) *)

(** [timestamp: u64] is kept as [N]; the serde names are "ts" and "i". *)
Record TopNEntry (T : Type) := mkTopNEntry { timestamp : N; item : T }.
Arguments mkTopNEntry {T} _ _.
Arguments timestamp {T} _.
Arguments item {T} _.

(** [impl Ord for TopNEntry<T>]: timestamp first, then the item. *)
#[export] Instance TopNEntry_Ord {T} `{Ord T} : Ord (TopNEntry T) :=
  fun a b => then_with (N.compare a.(timestamp) b.(timestamp))
                       (fun _ => cmp a.(item) b.(item)).

(* ------------------------------------------------------------------ *)
(** ** [BTreeSet] as a strictly ascending list *)

Section BTreeSet.
Context {A : Type} `{Ord A}.

(** [BTreeSet::contains]: search down the ascending sequence. *)
Fixpoint bt_contains (x : A) (s : list A) : bool :=
  match s with
  | [] => false
  | y :: s' => match cmp x y with
               | Lt => false
               | Eq => true
               | Gt => bt_contains x s'
               end
  end.

(** [BTreeSet::insert]: an equal element already present is kept. *)
Fixpoint bt_insert (x : A) (s : list A) : list A :=
  match s with
  | [] => [x]
  | y :: s' => match cmp x y with
               | Lt => x :: s
               | Eq => s
               | Gt => y :: bt_insert x s'
               end
  end.

(** [BTreeSet::pop_first]: drop the minimum. *)
Definition bt_pop_first (s : list A) : list A := tail s.

(** Building a set by inserting a sequence of elements, as serde's
    [Deserialize for BTreeSet] and repeated [insert]s do. *)
Definition bt_from_list (xs : list A) : list A :=
  fold_left (fun s x => bt_insert x s) xs [].

End BTreeSet.

(* ------------------------------------------------------------------ *)
(** ** [TopN<T>] (top_n.rs, lines 42-105) *)

Record TopN (T : Type) := mkTopN { set : list (TopNEntry T); capacity : nat }.
Arguments mkTopN {T} _ _.
Arguments set {T} _.
Arguments capacity {T} _.

Section TopNOps.
Context {T : Type} `{Ord T}.

(** [TopN::new] *)
Definition TopN_new (capacity : nat) (s : option (list (TopNEntry T))) : TopN T :=
  mkTopN (default [] s) capacity.

(** [TopN::insert] *)
Definition TopN_insert (h : TopN T) (e : TopNEntry T) : TopN T :=
  if bt_contains e h.(set) then h
  else
    let s := bt_insert e h.(set) in
    if Nat.ltb h.(capacity) (length s)
    then mkTopN (bt_pop_first s) h.(capacity)
    else mkTopN s h.(capacity).

(** [TopN::is_empty] *)
Definition TopN_is_empty (h : TopN T) : bool :=
  match h.(set) with [] => true | _ => false end.

(** [TopN::get_gte_timestamp] *)
Definition TopN_get_gte_timestamp (h : TopN T) (ts : N) : list (TopNEntry T) :=
  filter (fun e => (ts <= e.(timestamp))%N) h.(set).

(** [TopN::get_lte_timestamp] *)
Definition TopN_get_lte_timestamp (h : TopN T) (ts : N) : list (TopNEntry T) :=
  filter (fun e => (e.(timestamp) <= ts)%N) h.(set).

(** [TopN::get_all] *)
Definition TopN_get_all (h : TopN T) : list (TopNEntry T) := h.(set).

(** A sequence of inserts, left to right. *)
Definition TopN_insert_all (h : TopN T) (es : list (TopNEntry T)) : TopN T :=
  fold_left TopN_insert es h.

End TopNOps.

(** The [k] largest elements of an ascending list. *)
Definition lastn {A} (k : nat) (l : list A) : list A := skipn (length l - k) l.

(** Strictly below, for an [Ord]. *)
Definition cmp_lt {A} `{Ord A} (x y : A) : Prop := cmp x y = Lt.

(** The relation between every entry ever inserted, as an ascending
    duplicate-free list [all], and the retained set [s]: [s] is a suffix
    of [all] holding at most [k] entries, and all of [all] when shorter. *)
Definition topn_inv {A} `{Ord A} (k : nat) (all s : list A) : Prop :=
  StronglySorted cmp_lt all /\
  exists P, all = P ++ s /\ length s <= k /\ (P = [] \/ length s = k).

(* ------------------------------------------------------------------ *)
(** ** Results and the crate's error type *)

(** [Result<A, E>]. *)
Inductive result (A E : Type) := Ok (a : A) | Err (e : E).
Arguments Ok {A E} _.
Arguments Err {A E} _.

(** [crate::errors::Error], with the two variants the modelled code
    builds: [Msg] for [anyhow!(..).into()], whose text interpolates the
    [{error:?}] of an inner error ([cause]), and
    [ExpectedOrdersRuleViolated].  Debug renderings of orders and rules
    inside messages are left out of the texts. *)
Inductive Error :=
| Msg (msg : string) (cause : option Error)
| ExpectedOrdersRuleViolated (msg : string).

(** [Error::get_msg] *)
Definition get_msg (e : Error) : string :=
  match e with Msg m _ => m | ExpectedOrdersRuleViolated m => m end.

Definition is_ok {A E} (r : result A E) : bool :=
  match r with Ok _ => true | Err _ => false end.

(* ------------------------------------------------------------------ *)
(** ** JSON values (serde_json's data model) *)

(** A JSON text is represented by the value it denotes. *)
Inductive json :=
| JNull
| JBool (b : bool)
| JNum (n : N)
| JStr (s : string)
| JArr (l : list json)
| JObj (fields : list (string * json)).

(** [Serialize] / [Deserialize] into and out of that data model. *)
Class Serialize (T : Type) := to_json : T -> json.
Class Deserialize (T : Type) := from_json : json -> option T.

Fixpoint json_field (k : string) (fs : list (string * json)) : option json :=
  match fs with
  | [] => None
  | (k', v) :: fs' => if bool_decide (k = k') then Some v else json_field k fs'
  end.

(** A [u64] field: numbers of 64 bits or more are refused. *)
Definition u64_from_json (j : json) : option N :=
  match j with
  | JNum n => if (n <? 2 ^ 64)%N then Some n else None
  | _ => None
  end.

(** [#[derive(Serialize)]] on [TopNEntry], fields renamed "ts" and "i". *)
#[export] Instance TopNEntry_Serialize {T} `{Serialize T} : Serialize (TopNEntry T) :=
  fun e => JObj [("ts", JNum e.(timestamp)); ("i", to_json e.(item))].

#[export] Instance TopNEntry_Deserialize {T} `{Deserialize T} : Deserialize (TopNEntry T) :=
  fun j => match j with
           | JObj fs =>
               ts ← json_field "ts" fs ≫= u64_from_json;
               i ← json_field "i" fs ≫= from_json;
               Some (mkTopNEntry ts i)
           | _ => None
           end.

(** A [BTreeSet] serializes as the array of its elements in ascending
    order and deserializes by inserting the array's elements in turn. *)
Definition btreeset_to_json {A} `{Serialize A} (s : list A) : json :=
  JArr (map to_json s).

Definition btreeset_from_json {A} `{Ord A} `{Deserialize A} (j : json)
  : option (list A) :=
  match j with
  | JArr l => bt_from_list <$> mapM from_json l
  | _ => None
  end.

(** [TopN::get_set_json]: [serde_json::to_string(&self.set)]. *)
Definition TopN_get_set_json {T} `{Serialize T} (h : TopN T) : result json Error :=
  Ok (btreeset_to_json h.(set)).

(** The restore half of [load_top_n_from_file] once the text is read:
    deserialize the set, then [TopN::new(capacity, Some(set))]. *)
Definition TopN_from_json {T} `{Ord T} `{Deserialize T} (j : json) (capacity : nat)
  : option (TopN T) :=
  s ← btreeset_from_json j; Some (TopN_new capacity (Some s)).

(** An item type for concrete runs: [nat] items serialized as numbers. *)
#[export] Instance nat_Serialize : Serialize nat := fun n => JNum (N.of_nat n).
#[export] Instance nat_Deserialize : Deserialize nat :=
  fun j => match j with JNum n => Some (N.to_nat n) | _ => None end.

(* ------------------------------------------------------------------ *)
(** ** [OrderTrackingItem] (order_tracking_item.rs) and [OrderRequest] *)

(** [rust_decimal::Decimal]: a mantissa and a decimal scale; its [Ord]
    compares the numeric values. *)
Record Decimal := mkDecimal { mantissa : Z; scale : N }.

Definition Decimal_cmp (a b : Decimal) : comparison :=
  Z.compare (a.(mantissa) * 10 ^ Z.of_N b.(scale))
            (b.(mantissa) * 10 ^ Z.of_N a.(scale)).

(** [rest_model::OrderSide], ordered as declared. *)
Inductive OrderSide := Buy | Sell.

Definition OrderSide_cmp (a b : OrderSide) : comparison :=
  match a, b with
  | Buy, Sell => Lt
  | Sell, Buy => Gt
  | _, _ => Eq
  end.

Module Tracking.
(** [OrderTrackingItem { size, price, side, id }] *)
Record OrderTrackingItem := mkOrderTrackingItem {
  size : Decimal; price : Decimal; side : OrderSide; id : string }.
End Tracking.
Import Tracking (OrderTrackingItem, mkOrderTrackingItem).

(** [impl Ord for OrderTrackingItem]: id, then price, size and side. *)
#[export] Instance OrderTrackingItem_Ord : Ord OrderTrackingItem :=
  fun a b =>
    then_with (String.compare a.(Tracking.id) b.(Tracking.id)) (fun _ =>
    then_with (Decimal_cmp a.(Tracking.price) b.(Tracking.price)) (fun _ =>
    then_with (Decimal_cmp a.(Tracking.size) b.(Tracking.size)) (fun _ =>
    OrderSide_cmp a.(Tracking.side) b.(Tracking.side)))).

Module Account.
(** The fields of [futures::account::OrderRequest] read by the tracker. *)
Record OrderRequest := mkOrderRequest {
  symbol : string;
  side : OrderSide;
  quantity : option Decimal;
  price : option Decimal }.
End Account.
Import Account (OrderRequest, mkOrderRequest).

(* ------------------------------------------------------------------ *)
(** ** [order_tracker.rs]: the per-symbol registry and its files *)

(** [TOP_N_ORDER_TRACKING_CAPACITY] *)
Definition TOP_N_ORDER_TRACKING_CAPACITY : nat := 3000.

(** A file on disk: readable text, which may or may not be JSON, or a
    file that exists but cannot be read. *)
Inductive FileState :=
| FileText (content : option json)
| FileUnreadable.

(** The process state: [SYMBOL_ORDER_TRACKING] and the file system. *)
Record World := mkWorld {
  tracking : gmap string (TopN OrderTrackingItem);
  files : gmap string FileState }.

(** How [fs::write] ends.  It is [File::create] (which truncates) followed
    by [write_all]: it succeeds; or [File::create] fails and the file is
    left as it was; or [write_all] fails after the truncation, leaving a
    proper prefix of the JSON text of an array, which is no JSON, or, when
    cut inside a UTF-8 sequence, not even readable as a string. *)
Inductive WriteOutcome :=
| WriteOk
| CreateFailed
| WriteAllFailed (cut_in_utf8 : bool).

(** What the outside world answers during one call: the clock
    ([None] when it reads before the epoch), the fresh UUID, and how
    [fs::write] ends. *)
Record Env := mkEnv {
  env_now_nanos : option N;
  env_uuid : string;
  env_write : WriteOutcome }.

Definition set_tracking (w : World) (t : gmap string (TopN OrderTrackingItem)) : World :=
  mkWorld t w.(files).

Definition set_files (w : World) (fs : gmap string FileState) : World :=
  mkWorld w.(tracking) fs.

(** [get_file_path] *)
Definition get_file_path (order_symbol : string) : string :=
  "order_tracker_" ++ order_symbol ++ ".json".

(** [Path::exists] *)
Definition file_exists (fs : gmap string FileState) (p : string) : bool :=
  bool_decide (is_Some (fs !! p)).

Section Tracker.
(** The derived serde impls of [OrderTrackingItem] (decimals as strings)
    are left abstract. *)
Context `{Serialize OrderTrackingItem} `{Deserialize OrderTrackingItem}.

(** [save_top_n_to_file]: the result and the file system afterwards. *)
Definition save_top_n_to_file (env : Env) (fs : gmap string FileState)
    (top_n : TopN OrderTrackingItem) (save_file_path : string)
  : result unit Error * gmap string FileState :=
  match TopN_get_set_json top_n with
  | Err e => (Err e, fs)
  | Ok as_json =>
      match env.(env_write) with
      | WriteOk => (Ok tt, <[save_file_path := FileText (Some as_json)]> fs)
      | CreateFailed => (Err (Msg "Failed to save top n to file: " None), fs)
      | WriteAllFailed cut_in_utf8 =>
          (Err (Msg "Failed to save top n to file: " None),
           <[save_file_path := if cut_in_utf8 then FileUnreadable else FileText None]> fs)
      end
  end.

(** [load_top_n_from_file] *)
Definition load_top_n_from_file (fs : gmap string FileState)
    (save_file_path : string) (capacity : nat)
  : result (TopN OrderTrackingItem) Error :=
  match fs !! save_file_path with
  | None | Some FileUnreadable => Err (Msg "Failed to read top n from file: " None)
  | Some (FileText c) =>
      match c ≫= btreeset_from_json with
      | None => Err (Msg "Failed to deserialize top n from json: " None)
      | Some s => Ok (TopN_new capacity (Some s))
      end
  end.

(** [add_order_tracking_item]: returns the result and the state after
    the call (the map entry is mutated in place under its lock). *)
Definition add_order_tracking_item (env : Env) (order_request : OrderRequest)
    (w : World) : result (TopNEntry OrderTrackingItem) Error * World :=
  let symbol := order_request.(Account.symbol) in
  let file_path := get_file_path symbol in
  match env.(env_now_nanos) with
  | None => (Err (Msg "Failed to get current time for order tracking item: " None), w)
  | Some nanos =>
  let timestamp_nanos := (nanos mod 2 ^ 64)%N in
  match order_request.(Account.quantity) with
  | None => (Err (Msg "Quantity is required to add order tracking item" None), w)
  | Some quantity =>
  match order_request.(Account.price) with
  | None => (Err (Msg "Price is required to add order tracking item" None), w)
  | Some price =>
  let tracking_item := mkOrderTrackingItem quantity price order_request.(Account.side)
                         (env.(env_uuid) ++ "-" ++ pretty timestamp_nanos) in
  let new_item_entry := mkTopNEntry timestamp_nanos tracking_item in
  (* .entry(symbol).or_default() *)
  let top_n0 := default (TopN_new TOP_N_ORDER_TRACKING_CAPACITY None)
                        (w.(tracking) !! symbol) in
  let w1 := set_tracking w (<[symbol := top_n0]> w.(tracking)) in
  let loaded :=
    if TopN_is_empty top_n0 && file_exists w.(files) file_path
    then match load_top_n_from_file w.(files) file_path TOP_N_ORDER_TRACKING_CAPACITY with
         | Ok loaded_top_n => Ok loaded_top_n
         | Err error => Err (Msg "Failed to load order tracker file from " (Some error))
         end
    else Ok top_n0 in
  match loaded with
  | Err e => (Err e, w1)
  | Ok top_n1 =>
  let top_n2 := TopN_insert top_n1 new_item_entry in
  let w2 := set_tracking w (<[symbol := top_n2]> w.(tracking)) in
  match save_top_n_to_file env w2.(files) top_n2 file_path with
  | (Err error, fs') =>
      (Err (Msg "Failed to write TopN set to file when adding item " (Some error)), set_files w2 fs')
  | (Ok _, fs') => (Ok new_item_entry, set_files w2 fs')
  end
  end
  end
  end
  end.

End Tracker.

(** [order_tracker::get_all_tracking_items] *)
Definition get_all_tracking_items (w : World) (symbol : string)
  : option (list (TopNEntry OrderTrackingItem)) :=
  TopN_get_all <$> w.(tracking) !! symbol.

(** [order_tracker::get_gte_timestamp] *)
Definition get_gte_timestamp (w : World) (symbol : string) (timestamp : N)
  : option (list (TopNEntry OrderTrackingItem)) :=
  (fun top_n => TopN_get_gte_timestamp top_n timestamp) <$> w.(tracking) !! symbol.

(** A stand-in item codec for concrete runs of the tracker: an item is
    written as its id, and items are never read back. *)
Definition stub_item_ser : Serialize OrderTrackingItem := fun i => JStr i.(Tracking.id).
Definition stub_item_de : Deserialize OrderTrackingItem := fun _ => None.

(* ------------------------------------------------------------------ *)
(** ** Rules ([expected_order_requests/*.rs]) *)

(** [RulePeriod] *)
Inductive RulePeriod :=
| Seconds (n : N) | Minutes (n : N) | Hours (n : N) | Days (n : N) | Weeks (n : N).

#[export] Instance RulePeriod_eq_dec : EqDecision RulePeriod.
Proof. solve_decision. Defined.

(** [u64] multiplication, wrapping as in a release build. *)
Definition u64_mul (a b : N) : N := ((a * b) mod 2 ^ 64)%N.

(** [MIN_RULE_PERIOD_DURATION_SECS] *)
Definition MIN_RULE_PERIOD_DURATION_SECS : N := 120.

(** [RulePeriod::get_duration], in whole seconds. *)
Definition RulePeriod_get_duration (p : RulePeriod) : N :=
  match p with
  | Seconds seconds => seconds
  | Minutes minutes => u64_mul minutes 60
  | Hours hours => u64_mul (u64_mul hours 60) 60
  | Days days => u64_mul (u64_mul (u64_mul days 24) 60) 60
  | Weeks weeks => u64_mul (u64_mul (u64_mul (u64_mul weeks 7) 24) 60) 60
  end.

(** [RulePeriod::get_validated_duration] *)
Definition RulePeriod_get_validated_duration (p : RulePeriod) : result N Error :=
  let duration_secs := RulePeriod_get_duration p in
  if (duration_secs <? MIN_RULE_PERIOD_DURATION_SECS)%N
  then Err (ExpectedOrdersRuleViolated
              ("Rule period duration must be at least 120 seconds. Duration: "
               ++ pretty duration_secs))
  else Ok duration_secs.

(** [u64] subtraction, wrapping as in a release build. *)
Definition u64_sub (a b : N) : N := if (b <=? a)%N then (a - b)%N else (a + 2 ^ 64 - b)%N.

(** [RulePeriod::get_min_nanos_timestamp]: [as_nanos() as u64] keeps the
    low 64 bits of the nanosecond count. *)
Definition RulePeriod_get_min_nanos_timestamp (p : RulePeriod) (now_nanos : N) : result N Error :=
  match RulePeriod_get_validated_duration p with
  | Err e => Err e
  | Ok duration_secs =>
      let selected_nanos := ((duration_secs * 1000000000) mod 2 ^ 64)%N in
      Ok (u64_sub now_nanos selected_nanos)
  end.

Section Rules.
(** [ExpectedOrderRequestsRulePayload] (its module is not among the
    sources): only its [period] field and its [matches_order] and
    [validate] methods are used, and they are left abstract. *)
Context {Payload : Type} `{EqDecision Payload}.
Context (payload_period : Payload -> RulePeriod).
Context (payload_matches_order : Payload -> TopNEntry OrderTrackingItem -> bool).
Context (payload_validate : Payload -> TopNEntry OrderTrackingItem -> result unit Error).

(** [ExpectedOrderRequestsRule] *)
Inductive Rule := Global (p : Payload) | PerGrid (p : Payload).

#[export] Instance Rule_eq_dec : EqDecision Rule.
Proof. solve_decision. Defined.

Definition rule_payload (r : Rule) : Payload :=
  match r with Global p => p | PerGrid p => p end.

Definition is_global (r : Rule) : bool :=
  match r with Global _ => true | PerGrid _ => false end.

(** [ExpectedOrderRequestsRule::validate], [matches_order], [get_duration] *)
Definition Rule_validate (r : Rule) (o : TopNEntry OrderTrackingItem) : result unit Error :=
  payload_validate (rule_payload r) o.
Definition Rule_matches_order (r : Rule) (o : TopNEntry OrderTrackingItem) : bool :=
  payload_matches_order (rule_payload r) o.
Definition Rule_get_duration (r : Rule) : result N Error :=
  RulePeriod_get_validated_duration (payload_period (rule_payload r)).

(** A [HashSet<Rule>] is the list of its elements in iteration order
    (without duplicates); [hs_insert] keeps an element already there. *)
Definition hs_insert (r : Rule) (s : list Rule) : list Rule :=
  if decide (r ∈ s) then s else s ++ [r].

(** First loop of [validate_rule_set_durations]. *)
Fixpoint collect_durations (symbol : string) (rules : list Rule) : result (list N) Error :=
  match rules with
  | [] => Ok []
  | rule :: rest =>
      match Rule_get_duration rule with
      | Err error => Err (ExpectedOrdersRuleViolated
                            ("Failed to get duration for " ++ symbol ++ " rule: " ++ get_msg error))
      | Ok duration =>
          match collect_durations symbol rest with
          | Err e => Err e
          | Ok ds => Ok (duration :: ds)
          end
      end
  end.

Definition at_least_52_weeks (secs : N) : bool :=
  (52 <=? secs / 60 / 60 / 24 / 7)%N.

Definition hours_until_two_days (secs : N) : bool :=
  let duration_in_hours := (secs / 60 / 60)%N in
  ((1 <=? duration_in_hours) && (duration_in_hours <=? 48))%N.

(** [validate_rule_set_durations] *)
Definition validate_rule_set_durations (symbol : string) (rules : list Rule) : result unit Error :=
  match collect_durations symbol rules with
  | Err e => Err e
  | Ok durations =>
      if negb (existsb at_least_52_weeks durations) then
        Err (ExpectedOrdersRuleViolated ("No rule found to cover at least 52 weeks for symbol " ++ symbol))
      else if negb (existsb hours_until_two_days durations) then
        Err (ExpectedOrdersRuleViolated
               ("No rule found to cover somewhere between 1 and 48 hours for symbol " ++ symbol))
      else Ok tt
  end.

(** [validate_rule_set] *)
Definition validate_rule_set (symbol : string) (rules : list Rule) : result unit Error :=
  if negb (existsb is_global rules) then
    Err (ExpectedOrdersRuleViolated
           ("No global expected order requests rules found for symbol " ++ symbol))
  else validate_rule_set_durations symbol rules.

(** The loop over the matching rules of [validate_order_request]. *)
Fixpoint validate_matching (symbol : string) (o : TopNEntry OrderTrackingItem)
    (matching_rules : list Rule) : result (list Rule) Error :=
  match matching_rules with
  | [] => Ok []
  | rule :: rest =>
      match Rule_validate rule o with
      | Err error => Err (ExpectedOrdersRuleViolated
                            (symbol ++ " order request violates rule. Error: " ++ get_msg error))
      | Ok _ =>
          match validate_matching symbol o rest with
          | Err e => Err e
          | Ok vs => Ok (rule :: vs)
          end
      end
  end.

(** [validate_order_request], reading [EXPECTED_ORDER_REQUESTS_RULES]. *)
Definition validate_order_request (rules_map : gmap string (list Rule)) (symbol : string)
    (tracking_item_wrapper : TopNEntry OrderTrackingItem) : result (list Rule) Error :=
  match rules_map !! symbol with
  | None => Err (ExpectedOrdersRuleViolated
                   ("No expected order requests rules found for symbol " ++ symbol))
  | Some rules =>
      match validate_rule_set symbol rules with
      | Err e => Err e
      | Ok _ =>
          let matching_rules := filter (fun r => Rule_matches_order r tracking_item_wrapper = true) rules in
          match matching_rules with
          | [] => Err (ExpectedOrdersRuleViolated
                         "No matching expected order requests rules found for order request ")
          | _ => validate_matching symbol tracking_item_wrapper matching_rules
          end
      end
  end.

(** The loop over the submitted rules of [set_rules_for_symbol]. *)
Fixpoint add_submitted_rules (rules : list Rule) (new_set : list Rule) : result (list Rule) Error :=
  match rules with
  | [] => Ok new_set
  | rule :: rest =>
      if is_global rule
      then Err (Msg "Global rules should not be submitted into this function, they should be hardcoded" None)
      else add_submitted_rules rest (hs_insert rule new_set)
  end.

(** [set_rules_for_symbol]: the result and the updated
    [EXPECTED_ORDER_REQUESTS_RULES]. *)
Definition set_rules_for_symbol (rules_map : gmap string (list Rule)) (symbol : string)
    (rules : list Rule) : result unit Error * gmap string (list Rule) :=
  match rules with
  | [] => (Err (Msg ("No rules provided for symbol " ++ symbol) None), rules_map)
  | _ =>
  (* .entry(symbol).or_default() *)
  let existing_rules := default [] (rules_map !! symbol) in
  let m1 := <[symbol := existing_rules]> rules_map in
  match existing_rules with
  | [] => (Err (Msg ("No rules found for symbol " ++ symbol
                     ++ ". Should be hardcoded before calling this function") None), m1)
  | _ =>
  let global_rules := filter (fun r => is_global r = true) existing_rules in
  match global_rules with
  | [] => (Err (Msg ("No global rules found for symbol " ++ symbol
                     ++ ". Should be hardcoded and set into some static before calling this function")
                    None), m1)
  | _ =>
  let new_set0 := fold_left (fun s r => hs_insert r s) global_rules [] in
  match add_submitted_rules rules new_set0 with
  | Err e => (Err e, m1)
  | Ok [] => (Err (Msg ("Logic bug, new set of rules is empty for symbol " ++ symbol) None), m1)
  | Ok new_set => (Ok tt, <[symbol := new_set]> m1)
  end
  end
  end
  end.

End Rules.
Arguments Global {Payload} _.
Arguments PerGrid {Payload} _.

(* ------------------------------------------------------------------ *)
(** ** The caller: [FuturesAccount::place_order] (account.rs) *)

Section PlaceOrder.
Context `{Serialize OrderTrackingItem} `{Deserialize OrderTrackingItem}.
Context {Payload : Type}.
Context (payload_period : Payload -> RulePeriod).
Context (payload_matches_order : Payload -> TopNEntry OrderTrackingItem -> bool).
Context (payload_validate : Payload -> TopNEntry OrderTrackingItem -> result unit Error).

(** The checks [place_order] (and [place_order_with_key]) run before the
    order is posted: track the order, validate it against the rules, and
    require a validated rule.  The result is the rules that would be
    attached to the transaction; the posting itself is not modelled. *)
Definition place_order_checks (env : Env) (rules_map : gmap string (list (@Rule Payload)))
    (order : OrderRequest) (w : World) : result (list (@Rule Payload)) Error * World :=
  match add_order_tracking_item env order w with
  | (Err e, w') => (Err e, w')
  | (Ok top_n_entry, w') =>
      match validate_order_request payload_period payload_matches_order payload_validate
              rules_map order.(Account.symbol) top_n_entry with
      | Err e => (Err e, w')
      | Ok [] => (Err (Msg "Expected some validated rule but got none" None), w')
      | Ok validated_rules => (Ok validated_rules, w')
      end
  end.

End PlaceOrder.

(* ================================================================== *)
(** * Proofs *)

(* ------------------------------------------------------------------ *)
(** ** The order on entries *)

Lemma TopNEntry_cmp_unfold {T} `{Ord T} (a b : TopNEntry T) :
  cmp a b = then_with (N.compare a.(timestamp) b.(timestamp))
                      (fun _ => cmp a.(item) b.(item)).
Proof. reflexivity. Qed.

#[export] Instance TopNEntry_OrdLaws {T} `{OrdLaws T} : OrdLaws (TopNEntry T).
Proof.
  split.
  - intros [tx ix] [ty iy]. rewrite TopNEntry_cmp_unfold; simpl.
    destruct (N.compare tx ty) eqn:E; simpl.
    + apply N.compare_eq_iff in E; subst. rewrite cmp_eq_iff.
      split; [intros ->; reflexivity | intros [= ->]; reflexivity].
    + split; [discriminate | intros [= -> _]; rewrite N.compare_refl in E; discriminate].
    + split; [discriminate | intros [= -> _]; rewrite N.compare_refl in E; discriminate].
  - intros [tx ix] [ty iy]. rewrite !TopNEntry_cmp_unfold; simpl.
    rewrite (N.compare_antisym tx ty).
    destruct (N.compare tx ty); simpl; [apply cmp_opp | reflexivity | reflexivity].
  - intros [tx ix] [ty iy] [tz iz]. rewrite !TopNEntry_cmp_unfold; simpl.
    destruct (N.compare_spec tx ty) as [E1|E1|E1];
      destruct (N.compare_spec ty tz) as [E2|E2|E2];
      simpl; intros H1 H2; try discriminate; subst.
    all: first
      [ rewrite N.compare_refl; simpl; eapply cmp_lt_trans; eassumption
      | match goal with
        | |- then_with (N.compare ?a ?b) _ = Lt =>
            replace (N.compare a b) with Lt
              by (symmetry; apply N.compare_lt_iff; lia); reflexivity
        end ].
Qed.

(* ------------------------------------------------------------------ *)
(** ** The sorted-list [BTreeSet] *)

Section BTreeSetFacts.
Context {A : Type} `{OrdLaws A}.

Lemma cmp_refl (x : A) : cmp x x = Eq.
Proof. by apply cmp_eq_iff. Qed.

Lemma cmp_gt_lt (x y : A) : cmp x y = Gt -> cmp_lt y x.
Proof. unfold cmp_lt. intros E. rewrite (cmp_opp x y), E. reflexivity. Qed.

Lemma cmp_lt_gt (x y : A) : cmp_lt x y -> cmp y x = Gt.
Proof. unfold cmp_lt. intros E. rewrite (cmp_opp x y), E. reflexivity. Qed.

Lemma cmp_lt_irrefl (x : A) : ~ cmp_lt x x.
Proof. unfold cmp_lt. rewrite cmp_refl. discriminate. Qed.

Lemma bt_insert_In (x y : A) (s : list A) :
  In y (bt_insert x s) <-> y = x \/ In y s.
Proof.
  induction s as [|a s IH]; simpl; [intuition congruence|].
  destruct (cmp x a) eqn:E; simpl.
  - apply cmp_eq_iff in E; subst. intuition congruence.
  - intuition congruence.
  - rewrite IH. intuition congruence.
Qed.

Lemma bt_insert_sorted (x : A) (s : list A) :
  StronglySorted cmp_lt s -> StronglySorted cmp_lt (bt_insert x s).
Proof.
  induction s as [|a s IH]; intros Hs; simpl.
  - repeat constructor.
  - inversion Hs as [|? ? Hs' Ha]; subst.
    destruct (cmp x a) eqn:E.
    + assumption.
    + constructor; [assumption|]. constructor; [exact E|].
      eapply Forall_impl; [exact Ha|]. intros y Hy. eapply cmp_lt_trans; eauto.
    + constructor; [auto|]. apply List.Forall_forall. intros y Hy.
      apply bt_insert_In in Hy as [->|Hy].
      * by apply cmp_gt_lt.
      * by eapply List.Forall_forall in Ha.
Qed.

Lemma bt_contains_In (x : A) (s : list A) :
  StronglySorted cmp_lt s -> bt_contains x s = true <-> In x s.
Proof.
  induction s as [|a s IH]; intros Hs; simpl; [split; [discriminate|tauto]|].
  inversion Hs as [|? ? Hs' Ha]; subst.
  destruct (cmp x a) eqn:E.
  - apply cmp_eq_iff in E; subst. tauto.
  - split; [discriminate|]. intros [->|Hin].
    + rewrite cmp_refl in E. discriminate.
    + eapply List.Forall_forall in Ha; [|exact Hin].
      apply cmp_lt_gt in Ha. congruence.
  - rewrite IH by assumption. split; [tauto|]. intros [->|Hin]; [|exact Hin].
    rewrite cmp_refl in E. discriminate.
Qed.

Lemma bt_insert_In_id (x : A) (s : list A) :
  StronglySorted cmp_lt s -> In x s -> bt_insert x s = s.
Proof.
  intros Hs Hin. induction s as [|a s IH]; simpl; [destruct Hin|].
  inversion Hs as [|? ? Hs' Ha]; subst.
  destruct (cmp x a) eqn:E; [reflexivity| |].
  - destruct Hin as [->|Hin].
    + rewrite cmp_refl in E. discriminate.
    + eapply List.Forall_forall in Ha; [|exact Hin].
      apply cmp_lt_gt in Ha. congruence.
  - destruct Hin as [->|Hin].
    + rewrite cmp_refl in E. discriminate.
    + rewrite IH; auto.
Qed.

Lemma bt_insert_length (x : A) (s : list A) :
  ~ In x s -> length (bt_insert x s) = S (length s).
Proof.
  induction s as [|a s IH]; intros Hn; simpl; [reflexivity|].
  destruct (cmp x a) eqn:E; simpl.
  - apply cmp_eq_iff in E; subst. exfalso. apply Hn. left. reflexivity.
  - reflexivity.
  - rewrite IH; [reflexivity|]. intros Hin. apply Hn. right. exact Hin.
Qed.

Lemma bt_insert_app_l (x : A) (P S : list A) :
  Forall (fun p => cmp_lt p x) P -> bt_insert x (P ++ S) = P ++ bt_insert x S.
Proof.
  induction P as [|p P IH]; intros HP; simpl; [reflexivity|].
  inversion HP; subst. rewrite (cmp_lt_gt p x) by assumption.
  rewrite IH by assumption. reflexivity.
Qed.

Lemma bt_insert_app_r (x : A) (P S : list A) :
  Forall (cmp_lt x) S -> bt_insert x (P ++ S) = bt_insert x P ++ S.
Proof.
  intros HS. induction P as [|p P IH]; simpl.
  - destruct S as [|s S]; [reflexivity|]. apply Forall_inv in HS. simpl.
    unfold cmp_lt in HS. rewrite HS. reflexivity.
  - destruct (cmp x p); [reflexivity|reflexivity|]. rewrite IH. reflexivity.
Qed.

Lemma sorted_app_inv (P S : list A) :
  StronglySorted cmp_lt (P ++ S) ->
  StronglySorted cmp_lt S /\ (forall p s, In p P -> In s S -> cmp_lt p s).
Proof.
  induction P as [|p P IH]; simpl; intros Hs; [split; [exact Hs | tauto]|].
  inversion Hs as [|? ? Hs' Ha]; subst.
  destruct (IH Hs') as [HS Hlt]. split; [exact HS|].
  intros p' s [->|Hp] Hin; [|auto].
  eapply List.Forall_forall in Ha; [exact Ha|]. apply in_or_app. right. exact Hin.
Qed.

Lemma bt_from_list_fold_sorted (xs s : list A) :
  StronglySorted cmp_lt s ->
  StronglySorted cmp_lt (fold_left (fun s x => bt_insert x s) xs s).
Proof.
  revert s. induction xs as [|x xs IH]; intros s Hs; simpl; [exact Hs|].
  apply IH. by apply bt_insert_sorted.
Qed.

Lemma bt_from_list_fold_In (xs s : list A) (e : A) :
  In e (fold_left (fun s x => bt_insert x s) xs s) <-> In e s \/ In e xs.
Proof.
  revert s. induction xs as [|x xs IH]; intros s; simpl; [tauto|].
  rewrite IH, bt_insert_In. intuition congruence.
Qed.

Lemma bt_from_list_sorted (xs : list A) : StronglySorted cmp_lt (bt_from_list xs).
Proof. apply bt_from_list_fold_sorted. constructor. Qed.

Lemma bt_from_list_In (xs : list A) (e : A) : In e (bt_from_list xs) <-> In e xs.
Proof. unfold bt_from_list. rewrite bt_from_list_fold_In. simpl. tauto. Qed.

End BTreeSetFacts.

(* ------------------------------------------------------------------ *)
(** ** [TopN::insert] keeps the [k] largest entries *)

Section TopNFacts.
Context {T : Type} `{OrdLaws T}.

Lemma TopN_insert_capacity (h : TopN T) (e : TopNEntry T) :
  (TopN_insert h e).(capacity) = h.(capacity).
Proof.
  unfold TopN_insert. destruct (bt_contains e h.(set)); [reflexivity|].
  destruct (Nat.ltb _ _); reflexivity.
Qed.

Lemma skipn_length_app {A} (P s : list A) : skipn (length P) (P ++ s) = s.
Proof. induction P; simpl; auto. Qed.

Lemma topn_inv_step (k : nat) (all s : list (TopNEntry T)) (x : TopNEntry T) :
  topn_inv k all s ->
  topn_inv k (bt_insert x all) (TopN_insert (mkTopN s k) x).(set).
Proof.
  intros [Hsorted [P [-> [Hle Hor]]]].
  destruct (sorted_app_inv P s Hsorted) as [Hs Hlt].
  unfold TopN_insert; simpl.
  destruct (bt_contains x s) eqn:C.
  - apply bt_contains_In in C; [|exact Hs].
    rewrite bt_insert_In_id; [| exact Hsorted | apply in_or_app; right; exact C].
    split; [exact Hsorted|]. exists P. auto.
  - assert (Hn : ~ In x s).
    { intros Hin. apply (bt_contains_In x s Hs) in Hin. congruence. }
    split; [by apply bt_insert_sorted|].
    rewrite (bt_insert_length x s Hn).
    destruct (Nat.ltb_spec k (S (length s))) as [Hk|Hk]; simpl.
    + assert (Hks : length s = k) by lia.
      destruct s as [|s0 s'].
      * exists (bt_insert x (P ++ [])). simpl in *.
        split; [symmetry; apply app_nil_r | lia].
      * simpl. destruct (cmp x s0) eqn:E.
        -- simpl in C. rewrite E in C. discriminate.
        -- exists (bt_insert x P). rewrite bt_insert_app_r.
           ++ split; [reflexivity|]. simpl in *. split; [lia | right; lia].
           ++ inversion Hs as [|? ? Hs' Ha]; subst.
              constructor; [exact E|]. eapply Forall_impl; [exact Ha|].
              intros y Hy. eapply cmp_lt_trans; eauto.
        -- exists (P ++ [s0]). rewrite bt_insert_app_l.
           ++ simpl. rewrite E, <- app_assoc. simpl.
              split; [reflexivity|].
              assert (Hn' : ~ In x s') by (intros Hin; apply Hn; right; exact Hin).
              rewrite (bt_insert_length x s' Hn'). simpl in *.
              split; [lia | right; lia].
           ++ apply List.Forall_forall. intros p Hp.
              eapply cmp_lt_trans; [apply (Hlt p s0 Hp); left; reflexivity|].
              by apply cmp_gt_lt.
    + destruct Hor as [->|Hor]; [|lia].
      exists []. simpl. rewrite (bt_insert_length x s Hn).
      split; [reflexivity | split; [lia | left; reflexivity]].
Qed.

Lemma topn_inv_lastn (k : nat) (all s : list (TopNEntry T)) :
  topn_inv k all s -> s = lastn k all /\ length s <= k.
Proof.
  intros [_ [P [-> [Hle [->|Hk]]]]]; unfold lastn; split; auto.
  - simpl. replace (length s - k) with 0 by lia. reflexivity.
  - rewrite length_app, Hk. replace (length P + k - k) with (length P) by lia.
    by rewrite skipn_length_app.
Qed.

Lemma topn_insert_all_inv (k : nat) (xs : list (TopNEntry T)) (h : TopN T)
    (all : list (TopNEntry T)) :
  h.(capacity) = k -> topn_inv k all h.(set) ->
  (TopN_insert_all h xs).(capacity) = k /\
  topn_inv k (fold_left (fun s x => bt_insert x s) xs all) (TopN_insert_all h xs).(set).
Proof.
  unfold TopN_insert_all. revert h all.
  induction xs as [|x xs IH]; intros h all Hc Hinv; simpl; [auto|].
  apply IH.
  - by rewrite TopN_insert_capacity.
  - destruct h as [s c]; simpl in *; subst. by apply topn_inv_step.
Qed.

End TopNFacts.

(** C1: over every sequence of inserts into an empty [TopN] of capacity
    [k], the history stays within [k] entries and holds exactly the [k]
    largest of the distinct entries ever inserted, by (timestamp, item):
    the last [k] of the ascending duplicate-free list [bt_from_list xs] of
    all of them.  With capacity 3, after timestamps 10, 20, 30, inserting
    timestamp 5 leaves the history as it was. *)
Theorem topn_insert_keeps_k_largest {T : Type} `{OrdLaws T}
    (k : nat) (xs : list (TopNEntry T)) (a b c d : T) :
  let h := TopN_insert_all (TopN_new k None) xs in
  let all := bt_from_list xs in
  (StronglySorted cmp_lt all /\ (forall e, In e all <-> In e xs)) /\
  h.(capacity) = k /\ length h.(set) <= k /\ h.(set) = lastn k all /\
  (let h3 := TopN_insert_all (TopN_new 3 None)
               [mkTopNEntry 10 a; mkTopNEntry 20 b; mkTopNEntry 30 c] in
   h3.(set) = [mkTopNEntry 10 a; mkTopNEntry 20 b; mkTopNEntry 30 c] /\
   TopN_insert h3 (mkTopNEntry 5 d) = h3).
Proof.
  intros h all.
  destruct (topn_insert_all_inv k xs (TopN_new k None) [] eq_refl) as [Hc Hinv].
  { split; [constructor|]. exists []. simpl. split; [reflexivity | split; [lia | left; reflexivity]]. }
  destruct (topn_inv_lastn k _ _ Hinv) as [Hl Hle].
  split; [split; [apply bt_from_list_sorted | apply bt_from_list_In]|].
  split; [exact Hc|]. split; [exact Hle|]. split; [exact Hl|].
  split; reflexivity.
Qed.

Lemma topn_insert_keeps_k_largest_witness :
  OrdLaws nat /\
  (TopN_insert_all (TopN_new 2 None)
     [mkTopNEntry 3 1; mkTopNEntry 1 2; mkTopNEntry 3 1; mkTopNEntry 2 0]).(set)
  = lastn 2 (bt_from_list
     [mkTopNEntry 3 1; mkTopNEntry 1 2; mkTopNEntry 3 1; mkTopNEntry 2 0]).
Proof.
  split; [exact nat_OrdLaws|].
  destruct (topn_insert_keeps_k_largest (T:=nat) 2
              [mkTopNEntry 3 1; mkTopNEntry 1 2; mkTopNEntry 3 1; mkTopNEntry 2 0]
              1 2 3 4) as [_ [_ [_ [H _]]]].
  exact H.
Defined.

Example topn_insert_all_example :
  (TopN_insert_all (TopN_new 2 None)
     [mkTopNEntry 3 1; mkTopNEntry 1 2; mkTopNEntry 3 1; mkTopNEntry 2 0]).(set)
  = [mkTopNEntry 2 0; mkTopNEntry 3 1].
Proof. reflexivity. Qed.

(* ------------------------------------------------------------------ *)
(** ** Duplicates and timestamp collisions *)

Section InsertFacts.
Context {T : Type} `{OrdLaws T}.

Lemma TopN_insert_not_in_iff (h : TopN T) (e : TopNEntry T) :
  StronglySorted cmp_lt h.(set) -> ~ In e h.(set) ->
  In e (TopN_insert h e).(set) <->
  length h.(set) < h.(capacity) \/ exists y, In y h.(set) /\ cmp_lt y e.
Proof.
  destruct h as [s cap]. simpl. intros Hs Hn.
  unfold TopN_insert; simpl.
  assert (C : bt_contains e s = false).
  { destruct (bt_contains e s) eqn:C; [|reflexivity].
    apply (bt_contains_In e s Hs) in C. contradiction. }
  rewrite C, (bt_insert_length e s Hn).
  destruct (Nat.ltb_spec cap (S (length s))) as [Hk|Hk]; simpl.
  - destruct s as [|s0 s'].
    + simpl. split; [tauto|]. intros [Hl|[y [[] _]]]. simpl in *. lia.
    + simpl. inversion Hs as [|? ? Hs' Ha]; subst.
      destruct (cmp e s0) eqn:E; simpl.
      * apply cmp_eq_iff in E; subst. exfalso. apply Hn. left. reflexivity.
      * split; [intros Hin; exfalso; apply Hn; exact Hin|].
        intros [Hl|[y [Hy Hlt]]]; [simpl in *; lia|].
        destruct Hy as [<-|Hy].
        -- apply cmp_lt_gt in Hlt. congruence.
        -- eapply List.Forall_forall in Ha; [|exact Hy].
           exfalso; apply (cmp_lt_irrefl e). eapply cmp_lt_trans; [exact E|].
           eapply cmp_lt_trans; [exact Ha | exact Hlt].
      * split; [intros _; right; exists s0; split; [left; reflexivity | by apply cmp_gt_lt]|].
        intros _. apply bt_insert_In. left. reflexivity.
  - split; [intros _; left; lia|]. intros _. apply bt_insert_In. left. reflexivity.
Qed.

End InsertFacts.

(** C5: on a well-formed history (its set ascending), inserting an entry
    equal in timestamp and item to a stored one changes nothing.  Two
    entries with one timestamp and different items compare unequal, so an
    entry whose timestamp is taken only by entries with other items is not
    a duplicate: it is added, and it remains after the insert exactly when
    the history was below capacity or a stored entry is smaller (otherwise
    it is the minimum that the capacity check removes).  Below capacity the
    length grows by one. *)
Theorem topn_insert_dedup_and_timestamp_ties {T : Type} `{OrdLaws T}
    (h : TopN T) (e e' : TopNEntry T) :
  StronglySorted cmp_lt h.(set) ->
  (In e h.(set) -> TopN_insert h e = h) /\
  (e'.(timestamp) = e.(timestamp) -> e'.(item) <> e.(item) -> cmp e' e <> Eq) /\
  ((forall y, In y h.(set) -> y.(timestamp) = e'.(timestamp) -> y.(item) <> e'.(item)) ->
   bt_contains e' h.(set) = false /\
   (In e' (TopN_insert h e').(set) <->
      length h.(set) < h.(capacity) \/ exists y, In y h.(set) /\ cmp_lt y e') /\
   (length h.(set) < h.(capacity) ->
      length (TopN_insert h e').(set) = S (length h.(set)))).
Proof.
  intros Hs. split; [|split].
  - intros Hin. unfold TopN_insert.
    apply (bt_contains_In e _ Hs) in Hin. rewrite Hin. reflexivity.
  - intros Hts Hit Heq. apply cmp_eq_iff in Heq. subst. contradiction.
  - intros Hdiff.
    assert (Hn : ~ In e' h.(set)).
    { intros Hin. exact (Hdiff e' Hin eq_refl eq_refl). }
    assert (C : bt_contains e' h.(set) = false).
    { destruct (bt_contains e' h.(set)) eqn:C; [|reflexivity].
      apply (bt_contains_In e' _ Hs) in C. contradiction. }
    split; [exact C|]. split; [by apply TopN_insert_not_in_iff|].
    intros Hlt. unfold TopN_insert. rewrite C, (bt_insert_length e' _ Hn).
    destruct (Nat.ltb_spec h.(capacity) (S (length h.(set)))); [lia|].
    simpl. by apply bt_insert_length.
Qed.

Lemma topn_insert_dedup_and_timestamp_ties_witness :
  let h := mkTopN [mkTopNEntry 10 1; mkTopNEntry 20 2] 3 in
  StronglySorted cmp_lt h.(set) /\
  TopN_insert h (mkTopNEntry 10 1) = h /\
  length (TopN_insert h (mkTopNEntry 10 0)).(set) = 3.
Proof.
  intros h.
  assert (Hs : StronglySorted cmp_lt h.(set)).
  { repeat constructor. }
  destruct (topn_insert_dedup_and_timestamp_ties (T:=nat) h
              (mkTopNEntry 10 1) (mkTopNEntry 10 0) Hs) as [H1 [_ H3]].
  split; [exact Hs|]. split.
  - apply H1. left. reflexivity.
  - destruct H3 as [_ [_ H3]].
    + intros y [<-|[<-|[]]]; simpl; [intros _; lia | intros Ht; discriminate].
    + apply H3. simpl. lia.
Defined.

(* ------------------------------------------------------------------ *)
(** ** Snapshots *)

Section SnapshotFacts.
Context {T : Type} `{OrdLaws T} `{Serialize T} `{Deserialize T}.

Lemma entry_from_to_json (e : TopNEntry T) :
  (forall x : T, from_json (to_json x) = Some x) ->
  (e.(timestamp) < 2 ^ 64)%N ->
  from_json (to_json e) = Some e.
Proof.
  intros Hcodec Hts. destruct e as [ts i]; simpl in *.
  unfold from_json, to_json, TopNEntry_Deserialize, TopNEntry_Serialize; simpl.
  destruct (N.ltb_spec ts (2 ^ 64)) as [_|Hge]; [|lia]. simpl.
  rewrite Hcodec. reflexivity.
Qed.

Lemma mapM_from_to_json (l : list (TopNEntry T)) :
  (forall x : T, from_json (to_json x) = Some x) ->
  Forall (fun e => (e.(timestamp) < 2 ^ 64)%N) l ->
  mapM from_json (map to_json l) = Some l.
Proof.
  intros Hcodec. induction l as [|e l IH]; intros Hb; simpl; [reflexivity|].
  inversion Hb; subst.
  rewrite entry_from_to_json by assumption. simpl. rewrite IH by assumption.
  reflexivity.
Qed.

Lemma bt_from_list_sorted_id_acc (acc l : list (TopNEntry T)) :
  StronglySorted cmp_lt l ->
  (forall a x, In a acc -> In x l -> cmp_lt a x) ->
  fold_left (fun s x => bt_insert x s) l acc = acc ++ l.
Proof.
  revert acc. induction l as [|x l IH]; intros acc Hl Hlt; simpl.
  - by rewrite app_nil_r.
  - inversion Hl as [|? ? Hl' Hx]; subst.
    replace (bt_insert x acc) with (acc ++ [x]).
    + rewrite IH; [by rewrite <- app_assoc | exact Hl'|].
      intros a y Ha Hy. apply in_app_or in Ha as [Ha|[<-|[]]].
      * apply Hlt; [exact Ha | right; exact Hy].
      * by eapply List.Forall_forall in Hx.
    + rewrite <- (app_nil_r acc) at 2. rewrite bt_insert_app_l; [reflexivity|].
      apply List.Forall_forall. intros a Ha. apply Hlt; [exact Ha | left; reflexivity].
Qed.

Lemma bt_from_list_sorted_id (l : list (TopNEntry T)) :
  StronglySorted cmp_lt l -> bt_from_list l = l.
Proof.
  intros Hl. unfold bt_from_list.
  rewrite (bt_from_list_sorted_id_acc [] l Hl); [reflexivity|]. intros a x [].
Qed.

Lemma TopN_from_json_snapshot (h : TopN T) :
  (forall x : T, from_json (to_json x) = Some x) ->
  StronglySorted cmp_lt h.(set) ->
  Forall (fun e => (e.(timestamp) < 2 ^ 64)%N) h.(set) ->
  TopN_from_json (btreeset_to_json h.(set)) h.(capacity) = Some h.
Proof.
  intros Hcodec Hs Hb. destruct h as [s cap]; simpl in *.
  unfold TopN_from_json, btreeset_to_json, btreeset_from_json.
  rewrite mapM_from_to_json by assumption. simpl.
  rewrite bt_from_list_sorted_id by assumption. reflexivity.
Qed.

Lemma TopN_insert_length_mono (h : TopN T) (e : TopNEntry T) :
  length h.(set) <= length (TopN_insert h e).(set).
Proof.
  unfold TopN_insert. destruct (bt_contains e h.(set)) eqn:C; [lia|].
  assert (Hn : length (bt_insert e h.(set)) = S (length h.(set))).
  { revert C. induction h.(set) as [|a s IH]; simpl; [reflexivity|].
    destruct (cmp e a) eqn:E; simpl; [discriminate|reflexivity|].
    intros C. rewrite IH; auto. }
  destruct (Nat.ltb _ _); simpl; [|lia].
  destruct (bt_insert e h.(set)) as [|x r]; simpl in *; lia.
Qed.

End SnapshotFacts.

(** C4: for a well-formed history (ascending set, [u64] timestamps) and an
    item codec that round-trips, [get_set_json] yields the array of the
    entries in ascending order, and restoring that array with the same
    capacity gives back the same history; re-serializing the restored
    history gives the same array. *)
Theorem snapshot_restore_roundtrip {T : Type} `{OrdLaws T} `{Serialize T} `{Deserialize T}
    (h : TopN T) :
  (forall x : T, from_json (to_json x) = Some x) ->
  StronglySorted cmp_lt h.(set) ->
  Forall (fun e => (e.(timestamp) < 2 ^ 64)%N) h.(set) ->
  TopN_get_set_json h = Ok (JArr (map to_json h.(set))) /\
  TopN_from_json (JArr (map to_json h.(set))) h.(capacity) = Some h /\
  (forall h', TopN_from_json (JArr (map to_json h.(set))) h.(capacity) = Some h' ->
     TopN_get_set_json h' = TopN_get_set_json h).
Proof.
  intros Hcodec Hs Hb.
  pose proof (TopN_from_json_snapshot h Hcodec Hs Hb) as Hr.
  unfold btreeset_to_json in Hr.
  split; [reflexivity|]. split; [exact Hr|].
  intros h' Hh'. rewrite Hr in Hh'. injection Hh' as <-. reflexivity.
Qed.

Lemma nat_codec_roundtrip (x : nat) : from_json (to_json x) = Some x.
Proof. unfold from_json, to_json, nat_Deserialize, nat_Serialize. by rewrite Nat2N.id. Qed.

Lemma snapshot_restore_roundtrip_witness :
  let h := mkTopN [mkTopNEntry 1 7; mkTopNEntry 1 9; mkTopNEntry 4 2] 5 in
  TopN_from_json (JArr (map to_json h.(set))) h.(capacity) = Some h.
Proof.
  intros h.
  destruct (snapshot_restore_roundtrip (T:=nat) h nat_codec_roundtrip)
    as [_ [H _]].
  - repeat constructor.
  - repeat constructor; simpl; lia.
  - exact H.
Defined.

(** C9: restoring does not enforce the capacity.  A snapshot with more
    entries than the capacity restores to a history holding all of them;
    no insert shortens a history; so after any later inserts the history
    is still over its capacity. *)
Theorem restore_does_not_truncate {T : Type} `{OrdLaws T} `{Serialize T} `{Deserialize T}
    (entries : list (TopNEntry T)) (capacity : nat) (xs : list (TopNEntry T)) :
  (forall x : T, from_json (to_json x) = Some x) ->
  StronglySorted cmp_lt entries ->
  Forall (fun e => (e.(timestamp) < 2 ^ 64)%N) entries ->
  capacity < length entries ->
  TopN_from_json (btreeset_to_json entries) capacity = Some (mkTopN entries capacity) /\
  (forall (h : TopN T) (e : TopNEntry T), length h.(set) <= length (TopN_insert h e).(set)) /\
  capacity < length (TopN_insert_all (mkTopN entries capacity) xs).(set).
Proof.
  intros Hcodec Hs Hb Hover.
  split; [exact (TopN_from_json_snapshot (mkTopN entries capacity) Hcodec Hs Hb)|].
  split; [exact TopN_insert_length_mono|].
  unfold TopN_insert_all.
  assert (Hgen : forall (h : TopN T),
             length entries <= length h.(set) ->
             length entries <= length (fold_left TopN_insert xs h).(set)).
  { induction xs as [|x xs IH]; intros h Hh; simpl; [exact Hh|].
    apply IH. pose proof (TopN_insert_length_mono h x). lia. }
  specialize (Hgen (mkTopN entries capacity) (le_n _)). lia.
Qed.

Lemma restore_does_not_truncate_witness :
  let entries := [mkTopNEntry 1 0; mkTopNEntry 2 0; mkTopNEntry 3 0] in
  TopN_from_json (btreeset_to_json entries) 1 = Some (mkTopN entries 1) /\
  1 < length (TopN_insert_all (mkTopN entries 1) [mkTopNEntry 4 0; mkTopNEntry 5 0]).(set).
Proof.
  intros entries.
  destruct (restore_does_not_truncate (T:=nat) entries 1
              [mkTopNEntry 4 0; mkTopNEntry 5 0] nat_codec_roundtrip)
    as [H1 [_ H3]].
  - repeat constructor.
  - repeat constructor; simpl; lia.
  - simpl. lia.
  - split; [exact H1 | exact H3].
Defined.

(* ------------------------------------------------------------------ *)
(** ** [add_order_tracking_item] *)

(** Case on the outcome of the warm-start step. *)
Ltac destruct_loaded name :=
  match goal with
  | |- context [match (if ?c then ?x else ?y) with Ok _ => _ | Err _ => _ end] =>
      destruct (if c then x else y) as [name|?]
  end.

Section TrackerFacts.
Context `{Serialize OrderTrackingItem} `{Deserialize OrderTrackingItem}.

(** C6: on the path where the clock, the quantity and the price are
    present and the symbol's in-memory history is empty: if a snapshot
    file exists and restores, the new entry is inserted into the restored
    history; if it exists but cannot be read or deserialized, the call
    fails with that error wrapped, inserting nothing (the slot stays the
    empty history); if no file exists, the entry is inserted into the
    empty history. *)
Theorem add_item_warm_start (env : Env) (req : OrderRequest) (w : World)
    (nanos : N) (q p : Decimal) :
  env.(env_now_nanos) = Some nanos ->
  req.(Account.quantity) = Some q -> req.(Account.price) = Some p ->
  let sym := req.(Account.symbol) in
  let path := get_file_path sym in
  let ts := (nanos mod 2 ^ 64)%N in
  let e := mkTopNEntry ts (mkOrderTrackingItem q p req.(Account.side)
                             (env.(env_uuid) ++ "-" ++ pretty ts)) in
  let cur := default (TopN_new TOP_N_ORDER_TRACKING_CAPACITY None) (w.(tracking) !! sym) in
  TopN_is_empty cur = true ->
  (file_exists w.(files) path = true ->
   forall loaded,
     load_top_n_from_file w.(files) path TOP_N_ORDER_TRACKING_CAPACITY = Ok loaded ->
     (add_order_tracking_item env req w).2.(tracking) !! sym = Some (TopN_insert loaded e)) /\
  (file_exists w.(files) path = true ->
   forall err,
     load_top_n_from_file w.(files) path TOP_N_ORDER_TRACKING_CAPACITY = Err err ->
     add_order_tracking_item env req w =
       (Err (Msg "Failed to load order tracker file from " (Some err)),
        set_tracking w (<[sym := cur]> w.(tracking)))) /\
  (file_exists w.(files) path = false ->
     (add_order_tracking_item env req w).2.(tracking) !! sym = Some (TopN_insert cur e)).
Proof.
  intros Hnow Hq Hp sym path ts e cur Hempty.
  unfold add_order_tracking_item. rewrite Hnow, Hq, Hp. cbv zeta.
  subst sym path ts e cur. rewrite Hempty. simpl andb.
  split; [|split].
  - intros Hex loaded Hload. rewrite Hex, Hload.
    destruct (save_top_n_to_file _ _ _ _) as [[?|?] ?]; simpl; apply lookup_insert_eq.
  - intros Hex err Hload. rewrite Hex, Hload. reflexivity.
  - intros Hex. rewrite Hex.
    destruct (save_top_n_to_file _ _ _ _) as [[?|?] ?]; simpl; apply lookup_insert_eq.
Qed.

Lemma bt_insert_newest {T} `{Ord T} (e : TopNEntry T) (s : list (TopNEntry T)) :
  Forall (fun y => (y.(timestamp) < e.(timestamp))%N) s ->
  bt_contains e s = false /\ bt_insert e s = s ++ [e].
Proof.
  induction s as [|y s IH]; intros Hs; simpl; [split; reflexivity|].
  inversion Hs as [|? ? Hy Hs']; subst.
  rewrite TopNEntry_cmp_unfold.
  replace (N.compare e.(timestamp) y.(timestamp)) with Gt
    by (symmetry; apply N.compare_gt_iff; exact Hy).
  simpl. destruct (IH Hs') as [-> ->]. split; reflexivity.
Qed.

(** C7 (as amended): if the clock read fails, the call fails with the
    clock error whatever the fields, leaving the state untouched.  Once
    the clock has been read, a request without a quantity fails with the
    quantity error and one with a quantity but no price with the price
    error, both leaving the state untouched.  With both fields present: a
    successful call returns the entry built from the clock timestamp and
    those fields, and that entry has been inserted into the symbol's
    history; a failing call fails with a load error or a write error; a
    failed snapshot load on the warm-start path gives the load error; and
    when the write fails, the call fails with the load error or the write
    error. *)
Theorem add_item_requires_fields (env : Env) (req : OrderRequest) (w : World) :
  (env.(env_now_nanos) = None ->
     add_order_tracking_item env req w =
       (Err (Msg "Failed to get current time for order tracking item: " None), w)) /\
  forall nanos, env.(env_now_nanos) = Some nanos ->
  (req.(Account.quantity) = None ->
     add_order_tracking_item env req w =
       (Err (Msg "Quantity is required to add order tracking item" None), w)) /\
  (forall q, req.(Account.quantity) = Some q -> req.(Account.price) = None ->
     add_order_tracking_item env req w =
       (Err (Msg "Price is required to add order tracking item" None), w)) /\
  (forall q p, req.(Account.quantity) = Some q -> req.(Account.price) = Some p ->
     let sym := req.(Account.symbol) in
     let ts := (nanos mod 2 ^ 64)%N in
     let e := mkTopNEntry ts (mkOrderTrackingItem q p req.(Account.side)
                                (env.(env_uuid) ++ "-" ++ pretty ts)) in
     let cur := default (TopN_new TOP_N_ORDER_TRACKING_CAPACITY None) (w.(tracking) !! sym) in
     (forall e', (add_order_tracking_item env req w).1 = Ok e' ->
        e' = e /\
        exists h, (add_order_tracking_item env req w).2.(tracking) !! sym = Some (TopN_insert h e)) /\
     (forall err, (add_order_tracking_item env req w).1 = Err err ->
        (exists le, err = Msg "Failed to load order tracker file from " (Some le)) \/
        (exists we, err = Msg "Failed to write TopN set to file when adding item " (Some we))) /\
     (TopN_is_empty cur = true -> file_exists w.(files) (get_file_path sym) = true ->
      forall le, load_top_n_from_file w.(files) (get_file_path sym) TOP_N_ORDER_TRACKING_CAPACITY
                 = Err le ->
      (add_order_tracking_item env req w).1
        = Err (Msg "Failed to load order tracker file from " (Some le))) /\
     (env.(env_write) <> WriteOk ->
      (exists le, (add_order_tracking_item env req w).1
                  = Err (Msg "Failed to load order tracker file from " (Some le))) \/
      (add_order_tracking_item env req w).1
        = Err (Msg "Failed to write TopN set to file when adding item "
                 (Some (Msg "Failed to save top n to file: " None))))).
Proof.
  split; [intros Hn; unfold add_order_tracking_item; rewrite Hn; reflexivity|].
  intros nanos Hnow. unfold add_order_tracking_item. rewrite Hnow.
  split; [intros Hq; rewrite Hq; reflexivity|].
  split; [intros q Hq Hp; rewrite Hq, Hp; reflexivity|].
  intros q p Hq Hp. cbv zeta. rewrite Hq, Hp.
  split; [|split; [|split]].
  - intros e'. destruct_loaded top_n1; simpl; [|discriminate].
    destruct (save_top_n_to_file _ _ _ _) as [[?|?] ?]; simpl; [|discriminate].
    intros [= <-]. split; [reflexivity|]. exists top_n1. apply lookup_insert_eq.
  - intros err.
    destruct (_ && _); [destruct (load_top_n_from_file _ _ _) as [l|le]|]; simpl;
      try (intros [= <-]; left; eexists; reflexivity).
    all: destruct (save_top_n_to_file _ _ _ _) as [[?|we] ?]; simpl;
      [discriminate|intros [= <-]; right; eexists; reflexivity].
  - intros Hempty Hex le Hload. rewrite Hempty, Hex, Hload. reflexivity.
  - intros Hw.
    destruct (_ && _); [destruct (load_top_n_from_file _ _ _) as [l|le]|]; simpl;
      try (left; eexists; reflexivity).
    all: unfold save_top_n_to_file; simpl;
      destruct (env_write env); [congruence|right; reflexivity|right; reflexivity].
Qed.

(** C10: with the clock, quantity and price present and the disk write
    failing, the in-memory histories end as they would have with a working
    disk (the insert is kept), and the call fails with the write error
    wherever it would otherwise have succeeded.  For a non-empty history
    whose entries are all older than the new one, the call fails with the
    write error and the new entry is in the symbol's history; no file but
    the symbol's snapshot is touched, and that one is left as it was when
    [File::create] failed, or truncated (no JSON, or unreadable) when
    [write_all] failed. *)
Theorem add_item_failed_write_keeps_insert (env : Env) (req : OrderRequest) (w : World)
    (nanos : N) (q p : Decimal) :
  env.(env_now_nanos) = Some nanos ->
  req.(Account.quantity) = Some q -> req.(Account.price) = Some p ->
  env.(env_write) <> WriteOk ->
  let env_ok := mkEnv env.(env_now_nanos) env.(env_uuid) WriteOk in
  let sym := req.(Account.symbol) in
  let path := get_file_path sym in
  let ts := (nanos mod 2 ^ 64)%N in
  let e := mkTopNEntry ts (mkOrderTrackingItem q p req.(Account.side)
                             (env.(env_uuid) ++ "-" ++ pretty ts)) in
  let cur := default (TopN_new TOP_N_ORDER_TRACKING_CAPACITY None) (w.(tracking) !! sym) in
  (add_order_tracking_item env req w).2.(tracking)
    = (add_order_tracking_item env_ok req w).2.(tracking) /\
  (is_ok (add_order_tracking_item env_ok req w).1 = true ->
     exists err, (add_order_tracking_item env req w).1
                 = Err (Msg "Failed to write TopN set to file when adding item " (Some err))) /\
  (TopN_is_empty cur = false ->
   Forall (fun y => (y.(timestamp) < ts)%N) cur.(set) ->
   (add_order_tracking_item env req w).1 =
     Err (Msg "Failed to write TopN set to file when adding item "
            (Some (Msg "Failed to save top n to file: " None))) /\
   (add_order_tracking_item env req w).2.(tracking) = <[sym := TopN_insert cur e]> w.(tracking) /\
   In e (TopN_insert cur e).(set) /\
   (forall p', p' <> path -> (add_order_tracking_item env req w).2.(files) !! p' = w.(files) !! p') /\
   (env.(env_write) = CreateFailed ->
      (add_order_tracking_item env req w).2.(files) !! path = w.(files) !! path) /\
   (forall cut, env.(env_write) = WriteAllFailed cut ->
      (add_order_tracking_item env req w).2.(files) !! path
        = Some (if cut then FileUnreadable else FileText None))).
Proof.
  intros Hnow Hq Hp Hw env_ok sym path ts e cur.
  unfold add_order_tracking_item. subst env_ok. simpl env_now_nanos. simpl env_uuid.
  rewrite Hnow, Hq, Hp. cbv zeta. subst sym path ts e cur.
  split; [|split].
  - destruct_loaded top_n1; [|reflexivity].
    unfold save_top_n_to_file. simpl. destruct (env_write env); reflexivity.
  - destruct_loaded top_n1; simpl; [|discriminate].
    unfold save_top_n_to_file. simpl. intros _.
    destruct (env_write env); [congruence| |]; eexists; reflexivity.
  - intros Hne Hold. rewrite Hne. simpl andb.
    set (cur := default _ _) in *.
    match goal with |- context [In ?e' (TopN_insert cur ?e').(set)] =>
      assert (Hin : In e' (TopN_insert cur e').(set));
      [destruct (bt_insert_newest e' cur.(set) Hold) as [C I];
       unfold TopN_insert; rewrite C, I;
       unfold TopN_is_empty in Hne; destruct cur.(set) as [|y s]; [discriminate|];
       destruct (Nat.ltb _ _); simpl;
       [apply in_or_app; right; left; reflexivity
       |right; apply in_or_app; right; left; reflexivity]|]
    end.
    unfold save_top_n_to_file. simpl.
    destruct (env_write env) as [| |cut] eqn:Ew; [congruence| |]; simpl.
    + split; [reflexivity|]. split; [reflexivity|]. split; [exact Hin|].
      split; [intros; reflexivity|]. split; [intros; reflexivity|]. intros ? [=].
    + split; [reflexivity|]. split; [reflexivity|]. split; [exact Hin|].
      split; [intros p' Hp'; apply lookup_insert_ne; congruence|].
      split; [discriminate|]. intros ? [= <-]. apply lookup_insert_eq.
Qed.

End TrackerFacts.

Lemma add_item_warm_start_witness :
  let w := mkWorld ∅ {[ "order_tracker_BTCUSDT.json" := FileText None ]} in
  let req := mkOrderRequest "BTCUSDT" Buy (Some (mkDecimal 1 0)) (Some (mkDecimal 2 0)) in
  (@add_order_tracking_item stub_item_ser stub_item_de (mkEnv (Some 5%N) "u" WriteOk) req w).1
  = Err (Msg "Failed to load order tracker file from "
           (Some (Msg "Failed to deserialize top n from json: " None))).
Proof.
  intros w req.
  pose proof (@add_item_warm_start stub_item_ser stub_item_de
                (mkEnv (Some 5%N) "u" WriteOk) req w
                5 (mkDecimal 1 0) (mkDecimal 2 0) eq_refl eq_refl eq_refl) as H.
  destruct H as [_ [H2 _]]; [vm_compute; reflexivity|].
  rewrite (H2 ltac:(vm_compute; reflexivity) (Msg "Failed to deserialize top n from json: " None)
             ltac:(vm_compute; reflexivity)).
  reflexivity.
Defined.

Lemma add_item_failed_write_keeps_insert_witness :
  let w := mkWorld {[ "BTCUSDT" := mkTopN [mkTopNEntry 1 (mkOrderTrackingItem
                        (mkDecimal 1 0) (mkDecimal 1 0) Sell "a-1")] 3000 ]}
                   {[ "order_tracker_BTCUSDT.json" := FileText (Some (JArr [])) ]} in
  let req := mkOrderRequest "BTCUSDT" Buy (Some (mkDecimal 1 0)) (Some (mkDecimal 2 0)) in
  let r := @add_order_tracking_item stub_item_ser stub_item_de
             (mkEnv (Some 5%N) "u" (WriteAllFailed false)) req w in
  r.1 = Err (Msg "Failed to write TopN set to file when adding item "
               (Some (Msg "Failed to save top n to file: " None))) /\
  r.2.(files) !! "order_tracker_BTCUSDT.json" = Some (FileText None).
Proof.
  intros w req r.
  destruct (@add_item_failed_write_keeps_insert stub_item_ser stub_item_de
              (mkEnv (Some 5%N) "u" (WriteAllFailed false)) req w 5 (mkDecimal 1 0) (mkDecimal 2 0)
              eq_refl eq_refl eq_refl ltac:(discriminate)) as [_ [_ H3]].
  destruct H3 as (H1 & _ & _ & _ & _ & H6); [reflexivity | repeat constructor; simpl; lia |].
  split; [exact H1|exact (H6 false eq_refl)].
Defined.

Lemma add_item_requires_fields_witness :
  let w := mkWorld ∅ ∅ in
  let req := mkOrderRequest "BTCUSDT" Buy None (Some (mkDecimal 2 0)) in
  @add_order_tracking_item stub_item_ser stub_item_de (mkEnv (Some 5%N) "u" WriteOk) req w
  = (Err (Msg "Quantity is required to add order tracking item" None), w) /\
  @add_order_tracking_item stub_item_ser stub_item_de (mkEnv None "u" WriteOk) req w
  = (Err (Msg "Failed to get current time for order tracking item: " None), w).
Proof.
  intros w req. split.
  - apply (proj1 (proj2 (@add_item_requires_fields stub_item_ser stub_item_de
                           (mkEnv (Some 5%N) "u" WriteOk) req w) 5%N eq_refl)).
    reflexivity.
  - apply (proj1 (@add_item_requires_fields stub_item_ser stub_item_de
                    (mkEnv None "u" WriteOk) req w)).
    reflexivity.
Defined.

(** C7 fails as stated: when the clock read fails, a request without a
    quantity gets the clock error, not the quantity error; and a request
    with both fields gets the write error, not the entry, when the disk
    write fails. *)
Lemma add_item_fields_counterexample :
  let req_no_qty := mkOrderRequest "BTCUSDT" Buy None (Some (mkDecimal 2 0)) in
  let req_full := mkOrderRequest "BTCUSDT" Buy (Some (mkDecimal 1 0)) (Some (mkDecimal 2 0)) in
  (@add_order_tracking_item stub_item_ser stub_item_de
     (mkEnv None "u" WriteOk) req_no_qty (mkWorld ∅ ∅)).1
  = Err (Msg "Failed to get current time for order tracking item: " None) /\
  (@add_order_tracking_item stub_item_ser stub_item_de
     (mkEnv (Some 5%N) "u" CreateFailed) req_full (mkWorld ∅ ∅)).1
  = Err (Msg "Failed to write TopN set to file when adding item "
           (Some (Msg "Failed to save top n to file: " None))).
Proof. split; reflexivity. Qed.

(* ------------------------------------------------------------------ *)
(** ** Rules *)

Section RulesFacts.
Context {Payload : Type} `{EqDecision Payload}.
Context (payload_period : Payload -> RulePeriod).
Context (payload_matches_order : Payload -> TopNEntry OrderTrackingItem -> bool).
Context (payload_validate : Payload -> TopNEntry OrderTrackingItem -> result unit Error).

Lemma hs_insert_In (r x : @Rule Payload) (s : list (@Rule Payload)) :
  In x (hs_insert r s) <-> x = r \/ In x s.
Proof.
  unfold hs_insert. case_decide as Hd.
  - rewrite list_elem_of_In in Hd. intuition congruence.
  - rewrite in_app_iff. simpl. intuition congruence.
Qed.

Lemma hs_insert_NoDup (r : @Rule Payload) (s : list (@Rule Payload)) :
  NoDup s -> NoDup (hs_insert r s).
Proof.
  unfold hs_insert. case_decide as Hd; [auto|]. intros Hs.
  apply NoDup_app. split; [exact Hs|]. split; [|apply NoDup_singleton].
  intros x Hx Hx'. apply list_elem_of_singleton in Hx'. subst. contradiction.
Qed.

Lemma fold_hs_insert_In (l s : list (@Rule Payload)) (x : @Rule Payload) :
  In x (fold_left (fun s r => hs_insert r s) l s) <-> In x l \/ In x s.
Proof.
  revert s. induction l as [|a l IH]; intros s; simpl; [tauto|].
  rewrite IH, hs_insert_In. intuition congruence.
Qed.

Lemma fold_hs_insert_NoDup (l s : list (@Rule Payload)) :
  NoDup s -> NoDup (fold_left (fun s r => hs_insert r s) l s).
Proof.
  revert s. induction l as [|a l IH]; intros s Hs; simpl; [exact Hs|].
  apply IH, hs_insert_NoDup, Hs.
Qed.

Lemma add_submitted_rules_eq (rules s : list (@Rule Payload)) :
  add_submitted_rules rules s =
    if existsb is_global rules
    then Err (Msg "Global rules should not be submitted into this function, they should be hardcoded" None)
    else Ok (fold_left (fun s r => hs_insert r s) rules s).
Proof.
  revert s. induction rules as [|a rules IH]; intros s; simpl; [reflexivity|].
  destruct (is_global a); simpl; [reflexivity|]. apply IH.
Qed.

Lemma filter_global_nil (l : list (@Rule Payload)) :
  filter (fun r => is_global r = true) l = [] -> existsb is_global l = false.
Proof.
  induction l as [|a l IH]; simpl; [reflexivity|].
  rewrite filter_cons. case_decide as Hd; [discriminate|].
  intros Hf. destruct (is_global a); [contradiction|exact (IH Hf)].
Qed.

Lemma In_filter_global (l : list (@Rule Payload)) (x : @Rule Payload) :
  In x (filter (fun r => is_global r = true) l) <-> In x l /\ is_global x = true.
Proof. rewrite <- !list_elem_of_In, list_elem_of_filter. tauto. Qed.

Lemma set_rules_for_symbol_ok_inv (m : gmap string (list (@Rule Payload))) (symbol : string)
    (rules : list (@Rule Payload)) :
  (set_rules_for_symbol m symbol rules).1 = Ok tt ->
  rules <> [] /\
  exists ex, m !! symbol = Some ex /\ existsb is_global ex = true /\
    existsb is_global rules = false /\
    (set_rules_for_symbol m symbol rules).2 =
      <[symbol := fold_left (fun s r => hs_insert r s) rules
                   (fold_left (fun s r => hs_insert r s)
                      (filter (fun r => is_global r = true) ex) [])]> m.
Proof.
  unfold set_rules_for_symbol.
  destruct rules as [|r0 rs] eqn:Er; [discriminate|]. rewrite <- Er.
  destruct (m !! symbol) as [ex|] eqn:Em; simpl; [|discriminate].
  destruct ex as [|e0 ex'] eqn:Eex; [discriminate|]. rewrite <- Eex.
  destruct (filter _ ex) as [|g0 gs] eqn:Eg; [discriminate|]. rewrite <- Eg.
  rewrite add_submitted_rules_eq.
  destruct (existsb is_global rules) eqn:Eglob; [discriminate|].
  destruct (fold_left _ rules _) as [|n0 ns] eqn:En; [discriminate|].
  intros _. split; [subst rules; discriminate|].
  exists ex. split; [reflexivity|]. split.
  - destruct (existsb is_global ex) eqn:Eex2; [reflexivity|].
    exfalso. assert (In g0 (filter (fun r => is_global r = true) ex)) as Hg
      by (rewrite Eg; left; reflexivity).
    apply In_filter_global in Hg as [Hg1 Hg2].
    assert (existsb is_global ex = true) as Ht
      by (apply existsb_exists; exists g0; auto).
    congruence.
  - split; [reflexivity|]. simpl. rewrite <- En. apply insert_insert_eq.
Qed.

Lemma is_ok_unit (r : result unit Error) : is_ok r = true -> r = Ok tt.
Proof. destruct r as [[]|]; simpl; [reflexivity|discriminate]. Qed.

(** C3: [set_rules_for_symbol] fails on an empty submission, on a symbol
    with no entry, on an existing set without a Global rule, and on a
    submission containing a Global rule.  On success the symbol's new set
    holds exactly the old Global rules and the submitted ones, without
    duplicates, so its Global rules are exactly the old ones. *)
Theorem set_rules_for_symbol_preserves_globals (m : gmap string (list (@Rule Payload)))
    (symbol : string) (rules : list (@Rule Payload)) :
  let res := set_rules_for_symbol m symbol rules in
  (rules = [] -> is_ok res.1 = false) /\
  (m !! symbol = None -> is_ok res.1 = false) /\
  (forall ex, m !! symbol = Some ex -> existsb is_global ex = false -> is_ok res.1 = false) /\
  (existsb is_global rules = true -> is_ok res.1 = false) /\
  (res.1 = Ok tt ->
   exists ex new_set,
     m !! symbol = Some ex /\ res.2 = <[symbol := new_set]> m /\ NoDup new_set /\
     (forall r, In r new_set <-> (In r ex /\ is_global r = true) \/ In r rules) /\
     (forall r, is_global r = true -> (In r new_set <-> In r ex))).
Proof.
  intros res.
  assert (Hinv : is_ok res.1 = true ->
    rules <> [] /\
    exists ex, m !! symbol = Some ex /\ existsb is_global ex = true /\
      existsb is_global rules = false /\
      res.2 = <[symbol := fold_left (fun s r => hs_insert r s) rules
                   (fold_left (fun s r => hs_insert r s)
                      (filter (fun r => is_global r = true) ex) [])]> m)
    by (intros Hok; apply set_rules_for_symbol_ok_inv, is_ok_unit, Hok).
  split; [|split; [|split; [|split]]].
  - intros ->. destruct (is_ok res.1) eqn:E; [|reflexivity].
    destruct (Hinv eq_refl) as [Hne _]. contradiction.
  - intros Hm. destruct (is_ok res.1) eqn:E; [|reflexivity].
    destruct (Hinv eq_refl) as [_ [ex [Hm' _]]]. congruence.
  - intros ex Hm Hg. destruct (is_ok res.1) eqn:E; [|reflexivity].
    destruct (Hinv eq_refl) as [_ [ex' [Hm' [Hg' _]]]]. congruence.
  - intros Hg. destruct (is_ok res.1) eqn:E; [|reflexivity].
    destruct (Hinv eq_refl) as [_ [_ [_ [_ [Hg' _]]]]]. congruence.
  - intros Hok. rewrite Hok in Hinv.
    destruct (Hinv eq_refl) as [_ [ex [Hm [_ [Hr Hm']]]]].
    eexists ex, _. split; [exact Hm|]. split; [exact Hm'|]. split.
    + apply fold_hs_insert_NoDup, fold_hs_insert_NoDup. constructor.
    + assert (Hall : forall r, In r (fold_left (fun s r => hs_insert r s) rules
                     (fold_left (fun s r => hs_insert r s)
                        (filter (fun r => is_global r = true) ex) []))
                   <-> (In r ex /\ is_global r = true) \/ In r rules).
      { intros r. rewrite fold_hs_insert_In, fold_hs_insert_In, In_filter_global. simpl. tauto. }
      split; [exact Hall|].
      intros r Hgr. rewrite Hall. split; [|tauto].
      intros [[? _]|Hin]; [assumption|].
      exfalso. assert (existsb is_global rules = true) as Ht
        by (apply existsb_exists; exists r; auto).
      congruence.
Qed.

Lemma collect_durations_err_kind (symbol : string) (rules : list (@Rule Payload)) (e : Error) :
  collect_durations payload_period symbol rules = Err e -> exists msg, e = ExpectedOrdersRuleViolated msg.
Proof.
  induction rules as [|r rules IH]; simpl; [discriminate|].
  destruct (Rule_get_duration payload_period r); [|intros [= <-]; eexists; reflexivity].
  destruct (collect_durations payload_period symbol rules); [discriminate|].
  intros [= ->]. apply IH. reflexivity.
Qed.

Lemma validate_rule_set_err_kind (symbol : string) (rules : list (@Rule Payload)) (e : Error) :
  validate_rule_set payload_period symbol rules = Err e -> exists msg, e = ExpectedOrdersRuleViolated msg.
Proof.
  unfold validate_rule_set, validate_rule_set_durations.
  destruct (negb (existsb is_global rules)); [intros [= <-]; eexists; reflexivity|].
  destruct (collect_durations payload_period symbol rules) eqn:Ec.
  - destruct (negb _); [intros [= <-]; eexists; reflexivity|].
    destruct (negb _); [intros [= <-]; eexists; reflexivity|discriminate].
  - intros [= ->]. eapply collect_durations_err_kind. exact Ec.
Qed.

Lemma validate_matching_err (symbol : string) (o : TopNEntry OrderTrackingItem)
    (l : list (@Rule Payload)) (e : Error) :
  validate_matching payload_validate symbol o l = Err e ->
  exists r err, In r l /\ Rule_validate payload_validate r o = Err err /\
    e = ExpectedOrdersRuleViolated (symbol ++ " order request violates rule. Error: " ++ get_msg err).
Proof.
  induction l as [|r l IH]; simpl; [discriminate|].
  destruct (Rule_validate payload_validate r o) as [u|err] eqn:Ev.
  - destruct (validate_matching payload_validate symbol o l) eqn:El; [discriminate|].
    intros [= ->]. destruct (IH eq_refl) as [r' [err [Hin [Hv ->]]]].
    exists r', err. auto.
  - intros [= <-]. exists r, err. auto.
Qed.

(** C8 (as amended): every failure of [validate_order_request] is an
    [ExpectedOrdersRuleViolated] error; the four failure modes share that
    kind and differ only in the message: a symbol without rules, a rule set
    failing [validate_rule_set] (whose error is passed on unchanged), no
    matching rule, and a matching rule whose validation fails. *)
Theorem validate_order_request_error_kinds (m : gmap string (list (@Rule Payload)))
    (symbol : string) (o : TopNEntry OrderTrackingItem) :
  let res := validate_order_request payload_period payload_matches_order payload_validate
               m symbol o in
  let matching rules := filter (fun r => Rule_matches_order payload_matches_order r o = true) rules in
  (forall e, res = Err e -> exists msg, e = ExpectedOrdersRuleViolated msg) /\
  (m !! symbol = None ->
     res = Err (ExpectedOrdersRuleViolated
                  ("No expected order requests rules found for symbol " ++ symbol))) /\
  (forall rules e, m !! symbol = Some rules ->
     validate_rule_set payload_period symbol rules = Err e -> res = Err e) /\
  (forall rules, m !! symbol = Some rules ->
     validate_rule_set payload_period symbol rules = Ok tt -> matching rules = [] ->
     res = Err (ExpectedOrdersRuleViolated
                  "No matching expected order requests rules found for order request ")) /\
  (forall rules e, m !! symbol = Some rules ->
     validate_rule_set payload_period symbol rules = Ok tt -> matching rules <> [] ->
     res = Err e ->
     exists r err, In r rules /\ Rule_matches_order payload_matches_order r o = true /\
       Rule_validate payload_validate r o = Err err /\
       e = ExpectedOrdersRuleViolated (symbol ++ " order request violates rule. Error: " ++ get_msg err)).
Proof.
  intros res matching. subst res matching. unfold validate_order_request.
  split; [|split; [|split; [|split]]].
  - intros e. destruct (m !! symbol) as [rules|]; [|intros [= <-]; eexists; reflexivity].
    destruct (validate_rule_set payload_period symbol rules) eqn:Ev;
      [|intros [= <-]; eapply validate_rule_set_err_kind; exact Ev].
    destruct (filter _ rules) as [|r0 rs] eqn:Ef; [intros [= <-]; eexists; reflexivity|].
    rewrite <- Ef. intros Hm. apply validate_matching_err in Hm as [r [err [_ [_ ->]]]].
    eexists. reflexivity.
  - intros ->. reflexivity.
  - intros rules e -> ->. reflexivity.
  - intros rules -> -> ->. reflexivity.
  - intros rules e -> -> Hne.
    destruct (filter _ rules) as [|r0 rs] eqn:Ef; [contradiction|].
    rewrite <- Ef. intros Hm. apply validate_matching_err in Hm as [r [err [Hin [Hv ->]]]].
    apply list_elem_of_In, list_elem_of_filter in Hin as [Hmatch Hin].
    exists r, err. split; [apply list_elem_of_In, Hin|]. auto.
Qed.

End RulesFacts.

Definition sample_entry : TopNEntry OrderTrackingItem :=
  mkTopNEntry 5 (mkOrderTrackingItem (mkDecimal 1 0) (mkDecimal 2 0) Buy "u-5").

(** C2: the coverage check of [validate_rule_set_durations] compares whole
    hours, so a rule of 2910 minutes (48.5 hours) counts as covering
    between 1 and 48 hours.  With a 52-week Global rule and that rule, no
    rule's period lies within 1 to 48 hours, yet the rule set passes the
    structural check and an order matching it is accepted. *)
Theorem rule_set_hours_check_truncates :
  let rules : list (@Rule RulePeriod) := [Global (Weeks 52); PerGrid (Minutes 2910)] in
  Forall (fun r => ~ (3600 <= RulePeriod_get_duration (rule_payload r) <= 48 * 3600)%N) rules /\
  (48 * 3600 < RulePeriod_get_duration (Minutes 2910))%N /\
  validate_rule_set (fun p => p) "BTCUSDT" rules = Ok tt /\
  validate_order_request (fun p => p) (fun _ _ => true) (fun _ _ => Ok tt)
    {[ "BTCUSDT" := rules ]} "BTCUSDT" sample_entry = Ok rules.
Proof.
  intros rules. split; [|split; [|split]].
  - apply List.Forall_forall. intros r [<-|[<-|[]]]; vm_compute;
      intros [Ha Hb]; first [exact (Ha eq_refl) | exact (Hb eq_refl)].
  - vm_compute. reflexivity.
  - vm_compute. reflexivity.
  - vm_compute. reflexivity.
Qed.

Lemma set_rules_for_symbol_preserves_globals_witness :
  let m : gmap string (list (@Rule RulePeriod)) :=
    {[ "BTCUSDT" := [Global (Weeks 52); PerGrid (Hours 2)] ]} in
  let rules := [PerGrid (Hours 3); PerGrid (Days 1)] in
  is_ok (set_rules_for_symbol m "BTCUSDT" []).1 = false /\
  (set_rules_for_symbol m "BTCUSDT" rules).1 = Ok tt /\
  exists ex new_set, m !! "BTCUSDT" = Some ex /\
    (set_rules_for_symbol m "BTCUSDT" rules).2 = <[ "BTCUSDT" := new_set ]> m /\
    (forall r, is_global r = true -> (In r new_set <-> In r ex)).
Proof.
  intros m rules.
  assert (Hok : (set_rules_for_symbol m "BTCUSDT" rules).1 = Ok tt)
    by (vm_compute; reflexivity).
  split; [exact (proj1 (set_rules_for_symbol_preserves_globals m "BTCUSDT" []) eq_refl)|].
  split; [exact Hok|].
  destruct (set_rules_for_symbol_preserves_globals m "BTCUSDT" rules)
    as [_ [_ [_ [_ H5]]]].
  destruct (H5 Hok) as [ex [new_set [H1 [H2 [_ [_ H3]]]]]].
  exists ex, new_set. split; [exact H1|]. split; [exact H2|exact H3].
Defined.

Lemma validate_order_request_error_kinds_witness :
  let valid : list (@Rule RulePeriod) := [Global (Weeks 52); PerGrid (Hours 2)] in
  validate_order_request (fun p => p) (fun _ _ => true) (fun _ _ => Ok tt)
    ∅ "BTCUSDT" sample_entry
  = Err (ExpectedOrdersRuleViolated "No expected order requests rules found for symbol BTCUSDT") /\
  validate_order_request (fun p => p) (fun _ _ => false) (fun _ _ => Ok tt)
    {[ "BTCUSDT" := valid ]} "BTCUSDT" sample_entry
  = Err (ExpectedOrdersRuleViolated "No matching expected order requests rules found for order request ").
Proof.
  intros valid. split.
  - apply (validate_order_request_error_kinds (fun p => p) (fun _ _ => true) (fun _ _ => Ok tt)
             ∅ "BTCUSDT" sample_entry).
    reflexivity.
  - apply (validate_order_request_error_kinds (fun p => p) (fun _ _ => false) (fun _ _ => Ok tt)
             {[ "BTCUSDT" := valid ]} "BTCUSDT" sample_entry) with (rules := valid);
      vm_compute; reflexivity.
Defined.

(** C8 fails as stated: the four failure modes of [validate_order_request]
    (no rules, invalid rule set, no matching rule, rule violated) all give
    the same error kind, [ExpectedOrdersRuleViolated]. *)
Lemma validate_order_request_kinds_counterexample :
  let valid : list (@Rule RulePeriod) := [Global (Weeks 52); PerGrid (Hours 2)] in
  let vo m matches validate :=
    validate_order_request (fun p => p) matches validate m "BTCUSDT" sample_entry in
  vo ∅ (fun _ _ => true) (fun _ _ => Ok tt)
  = Err (ExpectedOrdersRuleViolated "No expected order requests rules found for symbol BTCUSDT") /\
  vo {[ "BTCUSDT" := [PerGrid (Hours 2)] ]} (fun _ _ => true) (fun _ _ => Ok tt)
  = Err (ExpectedOrdersRuleViolated "No global expected order requests rules found for symbol BTCUSDT") /\
  vo {[ "BTCUSDT" := valid ]} (fun _ _ => false) (fun _ _ => Ok tt)
  = Err (ExpectedOrdersRuleViolated "No matching expected order requests rules found for order request ") /\
  vo {[ "BTCUSDT" := valid ]} (fun _ _ => true) (fun _ _ => Err (Msg "size too large" None))
  = Err (ExpectedOrdersRuleViolated
           ("BTCUSDT order request violates rule. Error: " ++ get_msg (Msg "size too large" None))).
Proof. split; [|split; [|split]]; vm_compute; reflexivity. Qed.

(* ================================================================== *)
(** * Further properties of the code *)

(* ------------------------------------------------------------------ *)
(** ** [TopN] *)

Lemma bt_insert_length_not_contained {A} `{Ord A} (x : A) (s : list A) :
  bt_contains x s = false -> length (bt_insert x s) = S (length s).
Proof.
  induction s as [|a s IH]; simpl; [reflexivity|].
  destruct (cmp x a); [discriminate|reflexivity|]. intros C. simpl. rewrite IH; auto.
Qed.

Lemma tail_bt_insert_In {A} `{OrdLaws A} (x : A) (s : list A) :
  StronglySorted cmp_lt s -> ~ In x s ->
  (In x (tail (bt_insert x s)) <-> exists y, In y s /\ cmp_lt y x).
Proof.
  intros Hs Hn. destruct s as [|s0 s1]; simpl.
  - split; [tauto|]. intros (y & [] & _).
  - inversion Hs as [|? ? Hs1 Ha]; subst.
    destruct (cmp x s0) eqn:E; simpl.
    + apply cmp_eq_iff in E. subst. exfalso. apply Hn. left. reflexivity.
    + split; [intros Hin; contradiction|]. intros (y & Hy & Hlt). exfalso.
      assert (Hs0 : cmp_lt s0 x).
      { destruct Hy as [<-|Hy]; [exact Hlt|].
        eapply cmp_lt_trans; [|exact Hlt]. eapply List.Forall_forall in Ha; [exact Ha|exact Hy]. }
      apply cmp_lt_gt in Hs0. congruence.
    + split.
      * intros _. exists s0. split; [left; reflexivity|]. by apply cmp_gt_lt.
      * intros _. apply bt_insert_In. left. reflexivity.
Qed.

Lemma cmp_lt_timestamp {T} `{Ord T} (a b : TopNEntry T) :
  cmp_lt a b -> (a.(timestamp) <= b.(timestamp))%N.
Proof.
  unfold cmp_lt. rewrite TopNEntry_cmp_unfold.
  destruct (N.compare_spec a.(timestamp) b.(timestamp)); simpl; [lia|lia|discriminate].
Qed.

Lemma filter_timestamps_above {T} (s : list (TopNEntry T)) (t : N) :
  Forall (fun y => (t < y.(timestamp))%N) s ->
  filter (fun e => (e.(timestamp) <= t)%N) s = [] /\
  filter (fun e => (t + 1 <= e.(timestamp))%N) s = s.
Proof.
  induction s as [|x s IH]; intros Hs; [split; reflexivity|].
  inversion Hs as [|? ? Hx Hs']; subst. rewrite !filter_cons.
  rewrite decide_False by lia. rewrite decide_True by lia.
  destruct (IH Hs') as [-> ->]. split; reflexivity.
Qed.

(** [TopN::insert] never shrinks a history and never grows it past the
    larger of its capacity and its current size. *)
Theorem TopN_insert_length_bounds {T} `{Ord T} (h : TopN T) (e : TopNEntry T) :
  length h.(set) <= length (TopN_insert h e).(set) <= Nat.max (length h.(set)) h.(capacity).
Proof.
  unfold TopN_insert. destruct (bt_contains e h.(set)) eqn:C; [simpl; lia|].
  pose proof (bt_insert_length_not_contained e h.(set) C) as L.
  destruct (Nat.ltb_spec h.(capacity) (length (bt_insert e h.(set)))); simpl.
  - unfold bt_pop_first. destruct (bt_insert e h.(set)); simpl in *; lia.
  - lia.
Qed.

(** After [TopN::insert] the new entry is in the history exactly when it
    already was, or the history had room, or some retained entry is
    smaller than it; otherwise it is the one evicted. *)
Theorem TopN_insert_keeps_new_entry_iff {T} `{OrdLaws T} (h : TopN T) (e : TopNEntry T) :
  StronglySorted cmp_lt h.(set) ->
  (In e (TopN_insert h e).(set) <->
   In e h.(set) \/ length h.(set) < h.(capacity) \/ exists y, In y h.(set) /\ cmp_lt y e).
Proof.
  intros Hs. unfold TopN_insert. destruct (bt_contains e h.(set)) eqn:C.
  - apply (bt_contains_In e _ Hs) in C. tauto.
  - assert (Hn : ~ In e h.(set)).
    { intros Hin. apply (bt_contains_In e _ Hs) in Hin. congruence. }
    rewrite (bt_insert_length e _ Hn).
    destruct (Nat.ltb_spec h.(capacity) (S (length h.(set)))); simpl.
    + unfold bt_pop_first. rewrite tail_bt_insert_In by assumption.
      split; [tauto|]. intros [?|[?|?]]; [contradiction|lia|assumption].
    + split; [intros _; right; left; lia|].
      intros _. apply bt_insert_In. left. reflexivity.
Qed.

(** For an ascending history and a [t] whose successor is still a
    [u64], [get_lte_timestamp(t)] and [get_gte_timestamp(t + 1)] split
    [get_all()] in two: the entries up to [t] followed by the later ones. *)
Theorem TopN_get_all_split {T} `{Ord T} (h : TopN T) (t : N) :
  (t + 1 < 2 ^ 64)%N ->
  StronglySorted cmp_lt h.(set) ->
  TopN_get_all h = TopN_get_lte_timestamp h t ++ TopN_get_gte_timestamp h (t + 1).
Proof.
  unfold TopN_get_all, TopN_get_lte_timestamp, TopN_get_gte_timestamp.
  intros _. destruct h as [s c]; simpl. induction s as [|x s IH]; intros Hs; [reflexivity|].
  inversion Hs as [|? ? Hs' Ha]; subst. rewrite !filter_cons.
  destruct (decide ((timestamp x <= t)%N)) as [Hle|Hgt].
  - rewrite decide_False by lia. simpl. f_equal. apply IH, Hs'.
  - rewrite decide_True by lia.
    assert (Hall : Forall (fun y => (t < y.(timestamp))%N) s).
    { eapply Forall_impl; [exact Ha|]. intros y Hy. apply cmp_lt_timestamp in Hy. lia. }
    destruct (filter_timestamps_above s t Hall) as [-> ->]. reflexivity.
Qed.

(* ------------------------------------------------------------------ *)
(** ** The order on [OrderTrackingItem] *)

Lemma string_compare_lt_trans (s1 s2 s3 : string) :
  String.compare s1 s2 = Lt -> String.compare s2 s3 = Lt -> String.compare s1 s3 = Lt.
Proof.
  revert s2 s3. induction s1 as [|a1 s1 IH]; intros [|a2 s2] [|a3 s3]; simpl;
    try discriminate; auto.
  unfold Ascii.compare.
  destruct (N.compare_spec (Ascii.N_of_ascii a1) (Ascii.N_of_ascii a2));
    destruct (N.compare_spec (Ascii.N_of_ascii a2) (Ascii.N_of_ascii a3));
    intros H1 H2; try discriminate;
    destruct (N.compare_spec (Ascii.N_of_ascii a1) (Ascii.N_of_ascii a3));
    try lia; eauto.
Qed.

Lemma string_compare_eq_compat (s1 s2 s3 : string) :
  String.compare s1 s2 = Eq -> String.compare s1 s3 = String.compare s2 s3.
Proof. intros E. apply String.compare_eq_iff in E. subst. reflexivity. Qed.

Lemma string_compare_opp (s1 s2 : string) :
  String.compare s2 s1 = CompOpp (String.compare s1 s2).
Proof. apply String.compare_antisym. Qed.

Lemma Decimal_cmp_opp (a b : Decimal) : Decimal_cmp b a = CompOpp (Decimal_cmp a b).
Proof. unfold Decimal_cmp. apply Z.compare_antisym. Qed.

Lemma pow10_pos (s : N) : (0 < 10 ^ Z.of_N s)%Z.
Proof. apply Z.pow_pos_nonneg; lia. Qed.

Lemma Decimal_cmp_lt_trans (a b c : Decimal) :
  Decimal_cmp a b = Lt -> Decimal_cmp b c = Lt -> Decimal_cmp a c = Lt.
Proof.
  unfold Decimal_cmp. rewrite !Z.compare_lt_iff. intros H1 H2.
  pose proof (pow10_pos a.(scale)). pose proof (pow10_pos b.(scale)).
  pose proof (pow10_pos c.(scale)). nia.
Qed.

Lemma Decimal_cmp_eq_compat (a b c : Decimal) :
  Decimal_cmp a b = Eq -> Decimal_cmp a c = Decimal_cmp b c.
Proof.
  unfold Decimal_cmp. rewrite Z.compare_eq_iff. intros E.
  pose proof (pow10_pos a.(scale)). pose proof (pow10_pos b.(scale)).
  pose proof (pow10_pos c.(scale)).
  destruct (Z.compare_spec (mantissa a * 10 ^ Z.of_N (scale c)) (mantissa c * 10 ^ Z.of_N (scale a)));
    destruct (Z.compare_spec (mantissa b * 10 ^ Z.of_N (scale c)) (mantissa c * 10 ^ Z.of_N (scale b)));
    try reflexivity; exfalso; nia.
Qed.

Lemma OrderSide_cmp_opp (a b : OrderSide) : OrderSide_cmp b a = CompOpp (OrderSide_cmp a b).
Proof. destruct a, b; reflexivity. Qed.

Lemma OrderSide_cmp_lt_trans (a b c : OrderSide) :
  OrderSide_cmp a b = Lt -> OrderSide_cmp b c = Lt -> OrderSide_cmp a c = Lt.
Proof. destruct a, b, c; simpl; congruence. Qed.

Lemma OrderSide_cmp_eq_iff (a b : OrderSide) : OrderSide_cmp a b = Eq <-> a = b.
Proof. destruct a, b; simpl; split; congruence. Qed.

Lemma OrderSide_cmp_eq_compat (a b c : OrderSide) :
  OrderSide_cmp a b = Eq -> OrderSide_cmp a c = OrderSide_cmp b c.
Proof. intros E. apply OrderSide_cmp_eq_iff in E. subst. reflexivity. Qed.

Lemma then_with_eq_iff (c : comparison) (f : unit -> comparison) :
  then_with c f = Eq <-> c = Eq /\ f tt = Eq.
Proof. destruct c; simpl; intuition congruence. Qed.

(** A comparison by a key, then by a second comparison, is antisymmetric,
    transitive on [Lt] and compatible with [Eq] when both parts are. *)
Section Lex.
Context {X K : Type} (key : X -> K) (c : K -> K -> comparison) (g : X -> X -> comparison).
Hypothesis c_opp : forall a b, c b a = CompOpp (c a b).
Hypothesis c_lt_trans : forall a b d, c a b = Lt -> c b d = Lt -> c a d = Lt.
Hypothesis c_eq_compat : forall a b d, c a b = Eq -> c a d = c b d.
Hypothesis g_opp : forall a b, g b a = CompOpp (g a b).
Hypothesis g_lt_trans : forall a b d, g a b = Lt -> g b d = Lt -> g a d = Lt.
Hypothesis g_eq_compat : forall a b d, g a b = Eq -> g a d = g b d.

Let lex (x y : X) : comparison := then_with (c (key x) (key y)) (fun _ => g x y).

Lemma c_eq_compat_r (a b d : K) : c a b = Eq -> c d a = c d b.
Proof.
  intros E. rewrite (c_opp a d), (c_opp b d), (c_eq_compat a b d E). reflexivity.
Qed.

Lemma lex_opp (x y : X) : lex y x = CompOpp (lex x y).
Proof.
  unfold lex. rewrite (c_opp (key x) (key y)).
  destruct (c (key x) (key y)); simpl; [apply g_opp|reflexivity|reflexivity].
Qed.

Lemma lex_eq_compat (x y z : X) : lex x y = Eq -> lex x z = lex y z.
Proof.
  unfold lex. intros [E1 E2]%then_with_eq_iff.
  rewrite (c_eq_compat _ _ (key z) E1), (g_eq_compat _ _ z E2). reflexivity.
Qed.

Lemma lex_lt_trans (x y z : X) : lex x y = Lt -> lex y z = Lt -> lex x z = Lt.
Proof.
  unfold lex.
  destruct (c (key x) (key y)) eqn:E1; simpl; intros H1; try discriminate;
    destruct (c (key y) (key z)) eqn:E2; simpl; intros H2; try discriminate.
  - rewrite (c_eq_compat _ _ (key z) E1), E2. simpl. eauto.
  - rewrite (c_eq_compat _ _ (key z) E1), E2. reflexivity.
  - rewrite <- (c_eq_compat_r _ _ (key x) E2), E1. reflexivity.
  - rewrite (c_lt_trans _ _ _ E1 E2). reflexivity.
Qed.

End Lex.

Lemma lex_laws {X K} (key : X -> K) (c : K -> K -> comparison) (g : X -> X -> comparison) :
  ((forall a b, c b a = CompOpp (c a b)) /\
   (forall a b d, c a b = Lt -> c b d = Lt -> c a d = Lt) /\
   (forall a b d, c a b = Eq -> c a d = c b d)) ->
  ((forall a b, g b a = CompOpp (g a b)) /\
   (forall a b d, g a b = Lt -> g b d = Lt -> g a d = Lt) /\
   (forall a b d, g a b = Eq -> g a d = g b d)) ->
  let l := fun x y => then_with (c (key x) (key y)) (fun _ => g x y) in
  (forall a b, l b a = CompOpp (l a b)) /\
  (forall a b d, l a b = Lt -> l b d = Lt -> l a d = Lt) /\
  (forall a b d, l a b = Eq -> l a d = l b d).
Proof.
  intros (c1 & c2 & c3) (g1 & g2 & g3) l. subst l. cbv beta.
  split; [|split]; intros.
  - eapply lex_opp; eauto.
  - eapply lex_lt_trans; eauto.
  - eapply lex_eq_compat; eauto.
Qed.

Lemma N_compare_laws :
  (forall a b : N, N.compare b a = CompOpp (N.compare a b)) /\
  (forall a b d : N, N.compare a b = Lt -> N.compare b d = Lt -> N.compare a d = Lt) /\
  (forall a b d : N, N.compare a b = Eq -> N.compare a d = N.compare b d).
Proof.
  split; [|split].
  - intros a b. apply N.compare_antisym.
  - intros a b d. rewrite !N.compare_lt_iff. lia.
  - intros a b d E. apply N.compare_eq_iff in E. subst. reflexivity.
Qed.

Lemma bt_contains_compat {A} `{Ord A} (x x' : A) (s : list A) :
  (forall y, cmp x y = cmp x' y) -> bt_contains x s = bt_contains x' s.
Proof.
  intros E. induction s as [|y s IH]; simpl; [reflexivity|].
  rewrite E. destruct (cmp x' y); auto.
Qed.

Lemma oti_cmp_preorder :
  (forall a b : OrderTrackingItem, cmp b a = CompOpp (cmp a b)) /\
  (forall a b d : OrderTrackingItem, cmp a b = Lt -> cmp b d = Lt -> cmp a d = Lt) /\
  (forall a b d : OrderTrackingItem, cmp a b = Eq -> cmp a d = cmp b d).
Proof.
  assert (Ldec : (forall a b, Decimal_cmp b a = CompOpp (Decimal_cmp a b)) /\
                 (forall a b d, Decimal_cmp a b = Lt -> Decimal_cmp b d = Lt -> Decimal_cmp a d = Lt) /\
                 (forall a b d, Decimal_cmp a b = Eq -> Decimal_cmp a d = Decimal_cmp b d))
    by (split; [exact Decimal_cmp_opp | split; [exact Decimal_cmp_lt_trans | exact Decimal_cmp_eq_compat]]).
  assert (Lstr : (forall a b, String.compare b a = CompOpp (String.compare a b)) /\
                 (forall a b d, String.compare a b = Lt -> String.compare b d = Lt -> String.compare a d = Lt) /\
                 (forall a b d, String.compare a b = Eq -> String.compare a d = String.compare b d))
    by (split; [exact string_compare_opp | split; [exact string_compare_lt_trans | exact string_compare_eq_compat]]).
  assert (L3 : let g := fun a b : OrderTrackingItem => OrderSide_cmp a.(Tracking.side) b.(Tracking.side) in
               (forall a b, g b a = CompOpp (g a b)) /\
               (forall a b d, g a b = Lt -> g b d = Lt -> g a d = Lt) /\
               (forall a b d, g a b = Eq -> g a d = g b d)).
  { cbv zeta beta. split; [|split]; intros.
    - apply OrderSide_cmp_opp.
    - eapply OrderSide_cmp_lt_trans; eauto.
    - by apply OrderSide_cmp_eq_compat. }
  exact (lex_laws Tracking.id String.compare _ Lstr
           (lex_laws Tracking.price Decimal_cmp _ Ldec
              (lex_laws Tracking.size Decimal_cmp _ Ldec L3))).
Qed.

(** [impl Ord for OrderTrackingItem] is a total preorder: reversing the
    arguments reverses the result, [Less] is transitive, and items
    comparing [Equal] compare the same way with every other item. *)
Theorem OrderTrackingItem_cmp_laws :
  (forall a b : OrderTrackingItem, cmp b a = CompOpp (cmp a b)) /\
  (forall a b d : OrderTrackingItem, cmp a b = Lt -> cmp b d = Lt -> cmp a d = Lt) /\
  (forall a b d : OrderTrackingItem, cmp a b = Eq -> cmp a d = cmp b d).
Proof. exact oti_cmp_preorder. Qed.

(** Two tracking items compare [Equal] exactly when they have the same id
    and side and numerically equal prices and sizes; the decimals' scales
    may differ (1.0 and 1.00 are equal). *)
Theorem OrderTrackingItem_cmp_eq_iff (a b : OrderTrackingItem) :
  cmp a b = Eq <->
  a.(Tracking.id) = b.(Tracking.id) /\
  (a.(Tracking.price).(mantissa) * 10 ^ Z.of_N b.(Tracking.price).(scale) =
   b.(Tracking.price).(mantissa) * 10 ^ Z.of_N a.(Tracking.price).(scale))%Z /\
  (a.(Tracking.size).(mantissa) * 10 ^ Z.of_N b.(Tracking.size).(scale) =
   b.(Tracking.size).(mantissa) * 10 ^ Z.of_N a.(Tracking.size).(scale))%Z /\
  a.(Tracking.side) = b.(Tracking.side).
Proof.
  unfold cmp, OrderTrackingItem_Ord. rewrite !then_with_eq_iff.
  unfold Decimal_cmp. rewrite !Z.compare_eq_iff, OrderSide_cmp_eq_iff.
  split.
  - intros (E1 & E2 & E3 & E4). apply String.compare_eq_iff in E1. auto.
  - intros (E1 & E2 & E3 & E4). rewrite E1. split; [|auto].
    pose proof (String.compare_antisym b.(Tracking.id) b.(Tracking.id)) as A.
    destruct (String.compare _ _); simpl in A; congruence.
Qed.

Lemma TopNEntry_oti_eq_compat (e e' y : TopNEntry OrderTrackingItem) :
  cmp e e' = Eq -> cmp e y = cmp e' y.
Proof.
  destruct (lex_laws (@timestamp OrderTrackingItem) N.compare
              (fun a b => cmp a.(item) b.(item)) N_compare_laws) as (_ & _ & L).
  - destruct oti_cmp_preorder as (o1 & o2 & o3). split; [|split]; intros; eauto.
  - exact (L e e' y).
Qed.

(** [TopN::insert] treats an entry comparing [Equal] to a stored one as
    already present, so it leaves the history unchanged, even when the two
    differ, for example in the scale of a decimal. *)
Theorem TopN_insert_equal_entry_ignored (h : TopN OrderTrackingItem)
    (e e' : TopNEntry OrderTrackingItem) :
  bt_contains e h.(set) = true -> cmp e e' = Eq -> TopN_insert h e' = h.
Proof.
  intros C E. unfold TopN_insert.
  rewrite <- (bt_contains_compat e e' h.(set)); [rewrite C; reflexivity|].
  intros y. by apply TopNEntry_oti_eq_compat.
Qed.

(* ------------------------------------------------------------------ *)
(** ** [order_tracker.rs] *)

Section TrackerMore.
Context `{Serialize OrderTrackingItem} `{Deserialize OrderTrackingItem}.

Lemma save_top_n_to_file_ok (env : Env) (fs fs' : gmap string FileState)
    (top_n : TopN OrderTrackingItem) (p : string) :
  save_top_n_to_file env fs top_n p = (Ok tt, fs') ->
  fs' = <[p := FileText (Some (btreeset_to_json top_n.(set)))]> fs.
Proof. unfold save_top_n_to_file. simpl. destruct (env_write env); congruence. Qed.

Lemma save_top_n_to_file_frame (env : Env) (fs : gmap string FileState)
    (top_n : TopN OrderTrackingItem) (p p' : string) :
  p' <> p -> (save_top_n_to_file env fs top_n p).2 !! p' = fs !! p'.
Proof.
  intros Hp. unfold save_top_n_to_file. simpl.
  destruct (env_write env); simpl; rewrite ?lookup_insert_ne by congruence; reflexivity.
Qed.

(** [add_order_tracking_item] touches only its own symbol: every other
    symbol's history and every file other than the symbol's own are as
    they were, whatever the outcome. *)
Theorem add_item_frame (env : Env) (req : OrderRequest) (w : World) (s p : string) :
  s <> req.(Account.symbol) -> p <> get_file_path req.(Account.symbol) ->
  (add_order_tracking_item env req w).2.(tracking) !! s = w.(tracking) !! s /\
  (add_order_tracking_item env req w).2.(files) !! p = w.(files) !! p.
Proof.
  intros Hs Hp. unfold add_order_tracking_item.
  destruct (env_now_nanos env); [|auto]. destruct (Account.quantity req); [|auto].
  destruct (Account.price req); [|auto]. cbv zeta.
  destruct_loaded top_n1; simpl.
  - match goal with |- context [save_top_n_to_file ?en ?fs ?t ?pa] =>
      pose proof (save_top_n_to_file_frame en fs t pa p Hp) as Hf;
      destruct (save_top_n_to_file en fs t pa) as [[?|?] fs']
    end; simpl in *;
      (split; [rewrite lookup_insert_ne by congruence; reflexivity|exact Hf]).
  - rewrite lookup_insert_ne by congruence. auto.
Qed.

(** Once the clock and both fields have been read, the symbol is in the
    registry after the call, whatever its outcome; in particular a new
    symbol whose snapshot fails to load is left registered with an empty
    history. *)
Theorem add_item_registers_symbol (env : Env) (req : OrderRequest) (w : World)
    (nanos : N) (q p : Decimal) :
  env.(env_now_nanos) = Some nanos ->
  req.(Account.quantity) = Some q -> req.(Account.price) = Some p ->
  is_Some (get_all_tracking_items (add_order_tracking_item env req w).2 req.(Account.symbol)) /\
  (w.(tracking) !! req.(Account.symbol) = None ->
   (exists err, (add_order_tracking_item env req w).1
                = Err (Msg "Failed to load order tracker file from " (Some err))) ->
   get_all_tracking_items (add_order_tracking_item env req w).2 req.(Account.symbol) = Some []).
Proof.
  intros Hnow Hq Hp. unfold get_all_tracking_items, add_order_tracking_item.
  rewrite Hnow, Hq, Hp. cbv zeta. split.
  - destruct_loaded top_n1; simpl.
    + destruct (save_top_n_to_file _ _ _ _) as [[?|?] ?]; simpl; rewrite lookup_insert_eq; eauto.
    + rewrite lookup_insert_eq. eauto.
  - intros Hnone. rewrite Hnone. simpl.
    destruct (file_exists _ _); simpl.
    + destruct (load_top_n_from_file _ _ _); simpl.
      * destruct (save_top_n_to_file _ _ _ _) as [[?|?] ?]; simpl; intros [err Herr]; discriminate.
      * intros _. rewrite lookup_insert_eq. reflexivity.
    + destruct (save_top_n_to_file _ _ _ _) as [[?|?] ?]; simpl; intros [err Herr]; discriminate.
Qed.

Lemma add_item_ok_state (env : Env) (req : OrderRequest) (w : World)
    (e : TopNEntry OrderTrackingItem) :
  (add_order_tracking_item env req w).1 = Ok e ->
  exists h0, (add_order_tracking_item env req w).2.(tracking) !! req.(Account.symbol)
             = Some (TopN_insert h0 e) /\
    (add_order_tracking_item env req w).2.(files) !! get_file_path req.(Account.symbol)
             = Some (FileText (Some (btreeset_to_json (TopN_insert h0 e).(set)))).
Proof.
  unfold add_order_tracking_item.
  destruct (env_now_nanos env); [|discriminate]. destruct (Account.quantity req); [|discriminate].
  destruct (Account.price req); [|discriminate]. cbv zeta.
  destruct_loaded top_n1; simpl; [|discriminate].
  destruct (save_top_n_to_file _ _ _ _) as [[[]|?] fs'] eqn:Es; simpl; [|discriminate].
  intros [= <-]. apply save_top_n_to_file_ok in Es. subst. simpl.
  exists top_n1. rewrite !lookup_insert_eq. split; reflexivity.
Qed.

(** After a successful [add_order_tracking_item] the symbol's file holds
    the JSON of exactly the in-memory history, which contains the returned
    entry's insertion. *)
Theorem add_item_ok_persists_history (env : Env) (req : OrderRequest) (w : World)
    (e : TopNEntry OrderTrackingItem) :
  (add_order_tracking_item env req w).1 = Ok e ->
  exists h, (add_order_tracking_item env req w).2.(tracking) !! req.(Account.symbol) = Some h /\
    (add_order_tracking_item env req w).2.(files) !! get_file_path req.(Account.symbol)
      = Some (FileText (Some (btreeset_to_json h.(set)))) /\
    exists h0, h = TopN_insert h0 e.
Proof.
  intros Hok. destruct (add_item_ok_state env req w e Hok) as [h0 [H1 H2]].
  exists (TopN_insert h0 e). eauto.
Qed.

End TrackerMore.

(* ------------------------------------------------------------------ *)
(** ** [rules_map.rs] *)

Lemma N_div_bounds (a b : N) : b <> 0%N -> (b * (a / b) <= a < b * (a / b) + b)%N.
Proof.
  intros Hb. pose proof (N.div_mod a b Hb). pose proof (N.mod_lt a b Hb).
  generalize dependent (a / b)%N. generalize dependent (a mod b)%N. intros r Hr q Hq. nia.
Qed.

Lemma at_least_52_weeks_iff (secs : N) :
  at_least_52_weeks secs = true <-> (31449600 <= secs)%N.
Proof.
  unfold at_least_52_weeks. rewrite N.leb_le, !N.Div0.div_div.
  change (60 * (60 * (24 * 7)))%N with 604800%N.
  pose proof (N_div_bounds secs 604800 ltac:(lia)).
  generalize dependent (secs / 604800)%N. intros. split; intros; nia.
Qed.

Lemma hours_until_two_days_iff (secs : N) :
  hours_until_two_days secs = true <-> (3600 <= secs < 176400)%N.
Proof.
  unfold hours_until_two_days. rewrite andb_true_iff, !N.leb_le, !N.Div0.div_div.
  change (60 * 60)%N with 3600%N.
  pose proof (N_div_bounds secs 3600 ltac:(lia)).
  generalize dependent (secs / 3600)%N. intros. split; intros; nia.
Qed.

Lemma filter_all_true {A} (P : A -> Prop) `{forall x, Decision (P x)} (l : list A) :
  Forall P l -> filter P l = l.
Proof.
  induction l as [|x l IH]; intros Hl; [reflexivity|]. inversion Hl; subst.
  rewrite filter_cons, decide_True by assumption. f_equal. auto.
Qed.

Lemma filter_all_false {A} (P : A -> Prop) `{forall x, Decision (P x)} (l : list A) :
  Forall (fun x => ~ P x) l -> filter P l = [].
Proof.
  induction l as [|x l IH]; intros Hl; [reflexivity|]. inversion Hl; subst.
  rewrite filter_cons, decide_False by assumption. auto.
Qed.

Section RulesMore.
Context {Payload : Type} `{EqDecision Payload}.
Context (payload_period : Payload -> RulePeriod).
Context (payload_matches_order : Payload -> TopNEntry OrderTrackingItem -> bool).
Context (payload_validate : Payload -> TopNEntry OrderTrackingItem -> result unit Error).

Lemma Rule_get_duration_eq (r : @Rule Payload) :
  Rule_get_duration payload_period r =
    let d := RulePeriod_get_duration (payload_period (rule_payload r)) in
    if (d <? 120)%N
    then Err (ExpectedOrdersRuleViolated
                ("Rule period duration must be at least 120 seconds. Duration: " ++ pretty d))
    else Ok d.
Proof. reflexivity. Qed.

Lemma collect_durations_ok (symbol : string) (rules : list (@Rule Payload)) (ds : list N) :
  collect_durations payload_period symbol rules = Ok ds <->
  Forall (fun r => (120 <= RulePeriod_get_duration (payload_period (rule_payload r)))%N) rules /\
  ds = map (fun r => RulePeriod_get_duration (payload_period (rule_payload r))) rules.
Proof.
  revert ds. induction rules as [|r rules IH]; intros ds; simpl.
  - split; [intros [= <-]; split; [constructor|reflexivity] | intros [_ ->]; reflexivity].
  - rewrite Rule_get_duration_eq. cbv zeta.
    destruct (N.ltb_spec (RulePeriod_get_duration (payload_period (rule_payload r))) 120).
    + split; [discriminate|]. intros [Hf _]. inversion Hf. lia.
    + destruct (collect_durations payload_period symbol rules) as [ds'|e] eqn:Ec.
      * specialize (IH ds'). destruct IH as [IH1 _]. destruct (IH1 eq_refl) as [Hf ->].
        split; [intros [= <-]; split; [constructor; auto|reflexivity]|].
        intros [_ ->]. reflexivity.
      * split; [discriminate|]. intros [Hf ->]. inversion Hf; subst.
        assert (Err e = Ok (map (fun r => RulePeriod_get_duration (payload_period (rule_payload r))) rules))
          by (apply (proj2 (IH _)); auto). discriminate.
Qed.

(** [validate_rule_set] accepts a rule set exactly when it has a Global
    rule, every rule's period is at least 120 seconds, some period is at
    least 52 weeks, and some period is at least 1 hour and under 49 hours
    (hours are counted whole). *)
Theorem validate_rule_set_ok_iff (symbol : string) (rules : list (@Rule Payload)) :
  let dur r := RulePeriod_get_duration (payload_period (rule_payload r)) in
  validate_rule_set payload_period symbol rules = Ok tt <->
  (exists r, In r rules /\ is_global r = true) /\
  Forall (fun r => (120 <= dur r)%N) rules /\
  (exists r, In r rules /\ (31449600 <= dur r)%N) /\
  (exists r, In r rules /\ (3600 <= dur r < 176400)%N).
Proof.
  intros dur. unfold validate_rule_set, validate_rule_set_durations.
  rewrite <- (existsb_exists is_global).
  destruct (existsb is_global rules) eqn:Eg; simpl.
  2: { split; [discriminate|]. intros [H' _]. discriminate. }
  destruct (collect_durations payload_period symbol rules) as [ds|e] eqn:Ec.
  - apply collect_durations_ok in Ec as [Hf ->].
    change (map (fun r : @Rule Payload => RulePeriod_get_duration (payload_period (rule_payload r))) rules)
      with (map dur rules).
    assert (E52 : existsb at_least_52_weeks (map dur rules) = true <->
                  exists r, In r rules /\ (31449600 <= dur r)%N).
    { rewrite existsb_exists. split.
      - intros (x & Hx & Hw). apply in_map_iff in Hx as (r & <- & Hr).
        exists r. split; [exact Hr|]. by apply at_least_52_weeks_iff.
      - intros (r & Hr & Hw). exists (dur r). split; [apply in_map; exact Hr|].
        by apply at_least_52_weeks_iff. }
    assert (E48 : existsb hours_until_two_days (map dur rules) = true <->
                  exists r, In r rules /\ (3600 <= dur r < 176400)%N).
    { rewrite existsb_exists. split.
      - intros (x & Hx & Hw). apply in_map_iff in Hx as (r & <- & Hr).
        exists r. split; [exact Hr|]. by apply hours_until_two_days_iff.
      - intros (r & Hr & Hw). exists (dur r). split; [apply in_map; exact Hr|].
        by apply hours_until_two_days_iff. }
    destruct (existsb at_least_52_weeks (map dur rules)) eqn:E1; simpl.
    + destruct (existsb hours_until_two_days (map dur rules)) eqn:E2; simpl.
      * split; [intros _|reflexivity]. split; [reflexivity|]. split; [exact Hf|].
        split; [apply E52; reflexivity|apply E48; reflexivity].
      * split; [discriminate|]. intros (_ & _ & _ & H4). apply E48 in H4. discriminate.
    + split; [discriminate|]. intros (_ & _ & H3 & _). apply E52 in H3. discriminate.
  - split; [discriminate|]. intros (_ & Hf & _).
    assert (collect_durations payload_period symbol rules = Ok (map dur rules))
      by (apply collect_durations_ok; auto). congruence.
Qed.

Lemma validate_matching_ok (symbol : string) (o : TopNEntry OrderTrackingItem)
    (l vs : list (@Rule Payload)) :
  validate_matching payload_validate symbol o l = Ok vs <->
  vs = l /\ Forall (fun r => Rule_validate payload_validate r o = Ok tt) l.
Proof.
  revert vs. induction l as [|r l IH]; intros vs; cbn [validate_matching].
  - split; [intros [= <-]; split; [reflexivity|constructor] | intros [-> _]; reflexivity].
  - destruct (Rule_validate payload_validate r o) as [[]|err] eqn:Ev.
    + destruct (validate_matching payload_validate symbol o l) as [vs'|e] eqn:Em.
      * destruct (proj1 (IH vs') eq_refl) as [-> Hf].
        split; [intros [= <-]; split; [reflexivity|constructor; auto]
               | intros [-> _]; reflexivity].
      * split; [discriminate|]. intros [-> Hf]. inversion Hf as [|? ? Hr Hl]; subst.
        pose proof (proj2 (IH l) (conj eq_refl Hl)). congruence.
    + split; [discriminate|]. intros [_ Hf]. inversion Hf; congruence.
Qed.

Lemma validate_order_request_not_nil (m : gmap string (list (@Rule Payload))) (symbol : string)
    (o : TopNEntry OrderTrackingItem) :
  validate_order_request payload_period payload_matches_order payload_validate m symbol o <> Ok [].
Proof.
  unfold validate_order_request.
  destruct (m !! symbol) as [rules|]; [|discriminate].
  destruct (validate_rule_set payload_period symbol rules); [|discriminate].
  destruct (filter _ rules) as [|r rs]; [discriminate|].
  intros Hv. apply validate_matching_ok in Hv as [Hv _]. discriminate.
Qed.

(** [validate_order_request] succeeds exactly when the symbol has a rule
    set, that set passes [validate_rule_set], at least one rule matches the
    order, and every matching rule validates it; the result is then the
    matching rules, in the set's order. *)
Theorem validate_order_request_ok_iff (m : gmap string (list (@Rule Payload))) (symbol : string)
    (o : TopNEntry OrderTrackingItem) (vs : list (@Rule Payload)) :
  validate_order_request payload_period payload_matches_order payload_validate m symbol o = Ok vs <->
  exists rules, m !! symbol = Some rules /\
    validate_rule_set payload_period symbol rules = Ok tt /\
    vs = filter (fun r => Rule_matches_order payload_matches_order r o = true) rules /\
    vs <> [] /\
    Forall (fun r => Rule_validate payload_validate r o = Ok tt) vs.
Proof.
  unfold validate_order_request.
  destruct (m !! symbol) as [rules|] eqn:Em.
  2: { split; [discriminate|]. intros (rs & Hrs & _). congruence. }
  destruct (validate_rule_set payload_period symbol rules) as [[]|e] eqn:Ev.
  2: { split; [discriminate|]. intros (rs & [= <-] & Hv & _). congruence. }
  destruct (filter (fun r => Rule_matches_order payload_matches_order r o = true) rules)
    as [|r rs] eqn:Ef.
  - split; [discriminate|]. intros (rs & [= <-] & _ & -> & Hne & _). congruence.
  - rewrite validate_matching_ok. split.
    + intros [-> Hf]. exists rules. split; [reflexivity|]. split; [exact Ev|].
      split; [symmetry; exact Ef|]. split; [discriminate|exact Hf].
    + intros (rs' & [= <-] & _ & -> & _ & Hf). rewrite Ef in Hf |- *. split; [reflexivity|exact Hf].
Qed.

(** [set_rules_for_symbol] only ever writes the entry of [symbol]. *)
Theorem set_rules_for_symbol_other_symbols (m : gmap string (list (@Rule Payload)))
    (symbol : string) (rules : list (@Rule Payload)) (s : string) :
  s <> symbol -> (set_rules_for_symbol m symbol rules).2 !! s = m !! s.
Proof.
  intros Hs. unfold set_rules_for_symbol.
  destruct rules; [reflexivity|]. cbv zeta.
  repeat case_match; simpl; rewrite ?lookup_insert_ne by congruence; reflexivity.
Qed.

Lemma set_rules_for_symbol_unknown (m : gmap string (list (@Rule Payload)))
    (symbol : string) (rules : list (@Rule Payload)) :
  rules <> [] -> m !! symbol = None ->
  set_rules_for_symbol m symbol rules =
    (Err (Msg ("No rules found for symbol " ++ symbol
               ++ ". Should be hardcoded before calling this function") None),
     <[symbol := []]> m).
Proof. intros Hr Hm. unfold set_rules_for_symbol. destruct rules; [congruence|]. rewrite Hm. reflexivity. Qed.

Lemma set_rules_for_symbol_known_err (m : gmap string (list (@Rule Payload)))
    (symbol : string) (rules : list (@Rule Payload)) (ex : list (@Rule Payload)) (e : Error) :
  m !! symbol = Some ex -> (set_rules_for_symbol m symbol rules).1 = Err e ->
  (set_rules_for_symbol m symbol rules).2 = m.
Proof.
  intros Hm. unfold set_rules_for_symbol.
  destruct rules; [reflexivity|]. rewrite Hm. cbv zeta. simpl.
  repeat case_match; simpl; try discriminate; intros _; apply insert_id; exact Hm.
Qed.

(** A failed [set_rules_for_symbol] leaves the rules map as it was, with
    one exception: for a symbol with no entry (and a non-empty
    submission), [entry(..).or_default()] has already stored an empty
    rule set for it. *)
Theorem set_rules_for_symbol_failure_state (m : gmap string (list (@Rule Payload)))
    (symbol : string) (rules : list (@Rule Payload)) (e : Error) :
  (set_rules_for_symbol m symbol rules).1 = Err e ->
  (set_rules_for_symbol m symbol rules).2 = m \/
  (m !! symbol = None /\ rules <> [] /\
   (set_rules_for_symbol m symbol rules).2 = <[symbol := []]> m).
Proof.
  intros He. destruct rules as [|r rs] eqn:Er.
  - left. reflexivity.
  - rewrite <- Er in *. destruct (m !! symbol) as [ex|] eqn:Em.
    + left. exact (set_rules_for_symbol_known_err m symbol rules ex e Em He).
    + right. split; [reflexivity|]. split; [subst rules; discriminate|].
      rewrite set_rules_for_symbol_unknown by (subst rules; discriminate || exact Em).
      reflexivity.
Qed.

(** Composition: calling [set_rules_for_symbol] for a symbol that has no
    rules changes the error [validate_order_request] reports for it, from
    "no rules found" to "no global rules found", because of the empty set
    the failed call stored. *)
Theorem set_rules_for_symbol_unknown_then_validate (m : gmap string (list (@Rule Payload)))
    (symbol : string) (rules : list (@Rule Payload)) (o : TopNEntry OrderTrackingItem) :
  rules <> [] -> m !! symbol = None ->
  validate_order_request payload_period payload_matches_order payload_validate m symbol o =
    Err (ExpectedOrdersRuleViolated ("No expected order requests rules found for symbol " ++ symbol)) /\
  validate_order_request payload_period payload_matches_order payload_validate
    (set_rules_for_symbol m symbol rules).2 symbol o =
    Err (ExpectedOrdersRuleViolated ("No global expected order requests rules found for symbol " ++ symbol)).
Proof.
  intros Hr Hm. split.
  - unfold validate_order_request. rewrite Hm. reflexivity.
  - rewrite set_rules_for_symbol_unknown by assumption. simpl.
    unfold validate_order_request. rewrite lookup_insert_eq. reflexivity.
Qed.

Lemma fold_hs_insert_app (l s : list (@Rule Payload)) :
  exists l', fold_left (fun s r => hs_insert r s) l s = s ++ l' /\ forall x, In x l' -> In x l.
Proof.
  revert s. induction l as [|a l IH]; intros s; simpl.
  - exists []. rewrite app_nil_r. split; [reflexivity|]. intros _ [].
  - destruct (IH (hs_insert a s)) as (l' & Hl' & Hin). rewrite Hl'.
    unfold hs_insert. case_decide.
    + exists l'. split; [reflexivity|]. intros x Hx. right. auto.
    + exists (a :: l'). split; [rewrite <- app_assoc; reflexivity|].
      intros x [<-|Hx]; [left; reflexivity|right; auto].
Qed.

Lemma fold_hs_insert_NoDup_app (l s : list (@Rule Payload)) :
  NoDup (s ++ l) -> fold_left (fun s r => hs_insert r s) l s = s ++ l.
Proof.
  revert s. induction l as [|a l IH]; intros s Hnd; simpl; [by rewrite app_nil_r|].
  assert (Ha : a ∉ s).
  { apply NoDup_app in Hnd as (_ & Hdis & _). intros Ha. apply (Hdis a Ha).
    apply list_elem_of_In. left. reflexivity. }
  assert (hs_insert a s = s ++ [a]) as -> by (unfold hs_insert; by rewrite decide_False).
  rewrite IH by (rewrite <- app_assoc; exact Hnd). rewrite <- app_assoc. reflexivity.
Qed.

Lemma set_rules_for_symbol_eq_ok (m : gmap string (list (@Rule Payload)))
    (symbol : string) (rules ex : list (@Rule Payload)) :
  rules <> [] -> m !! symbol = Some ex -> ex <> [] ->
  filter (fun r => is_global r = true) ex <> [] ->
  existsb is_global rules = false ->
  fold_left (fun s r => hs_insert r s) rules
    (fold_left (fun s r => hs_insert r s) (filter (fun r => is_global r = true) ex) []) <> [] ->
  set_rules_for_symbol m symbol rules =
    (Ok tt, <[symbol := fold_left (fun s r => hs_insert r s) rules
                (fold_left (fun s r => hs_insert r s) (filter (fun r => is_global r = true) ex) [])]> m).
Proof.
  intros Hr Hm Hex Hg Hgr Hn. unfold set_rules_for_symbol.
  destruct rules as [|r0 rs] eqn:Er; [congruence|]. rewrite <- Er in *.
  rewrite Hm; simpl.
  destruct ex as [|e0 ex'] eqn:Eex; [congruence|]. rewrite <- Eex in *.
  destruct (filter _ ex) as [|g0 gs] eqn:Eg; [congruence|]. rewrite <- Eg in *.
  rewrite add_submitted_rules_eq, Hgr.
  destruct (fold_left _ rules _) as [|n0 ns] eqn:En; [congruence|].
  simpl. rewrite <- En. f_equal. apply insert_insert_eq.
Qed.

(** [set_rules_for_symbol] is idempotent: once a submission has been
    accepted, submitting the same rules again succeeds and leaves the map
    unchanged (the Global rules are kept first, then the submitted ones). *)
Theorem set_rules_for_symbol_idempotent (m : gmap string (list (@Rule Payload)))
    (symbol : string) (rules : list (@Rule Payload)) :
  (set_rules_for_symbol m symbol rules).1 = Ok tt ->
  set_rules_for_symbol (set_rules_for_symbol m symbol rules).2 symbol rules =
    (Ok tt, (set_rules_for_symbol m symbol rules).2).
Proof.
  intros Hok. apply set_rules_for_symbol_ok_inv in Hok as (Hne & ex & Hm & Hgex & Hgr & ->).
  set (G := fold_left (fun s r => hs_insert r s) (filter (fun r => is_global r = true) ex) []).
  set (N := fold_left (fun s r => hs_insert r s) rules G).
  assert (HGg : Forall (fun r => is_global r = true) G).
  { apply List.Forall_forall. intros x Hx. unfold G in Hx.
    apply fold_hs_insert_In in Hx as [Hx|[]]. apply In_filter_global in Hx. tauto. }
  assert (HG : fold_left (fun s r => hs_insert r s) G [] = G).
  { apply (fold_hs_insert_NoDup_app G []). apply fold_hs_insert_NoDup. constructor. }
  destruct (fold_hs_insert_app rules G) as (L & HL & HLin). fold N in HL.
  assert (HfN : filter (fun r => is_global r = true) N = G).
  { rewrite HL, filter_app, (filter_all_true _ G) by exact HGg.
    rewrite (filter_all_false _ L), app_nil_r; [reflexivity|].
    apply List.Forall_forall. intros x Hx Hgx. apply HLin in Hx.
    assert (existsb is_global rules = true) by (apply existsb_exists; eauto). congruence. }
  assert (HGne : G <> []).
  { apply existsb_exists in Hgex as (g & Hg & Hgg). intros HG0.
    assert (In g G) as Hin
      by (unfold G; apply fold_hs_insert_In; left; apply In_filter_global; auto).
    rewrite HG0 in Hin. exact Hin. }
  assert (HNne : N <> []).
  { destruct rules as [|r0 rs]; [congruence|]. intros HN0.
    assert (In r0 N) as Hin by (unfold N; apply fold_hs_insert_In; left; left; reflexivity).
    rewrite HN0 in Hin. exact Hin. }
  rewrite (set_rules_for_symbol_eq_ok (<[symbol := N]> m) symbol rules N).
  - rewrite HfN, HG. fold N. by rewrite insert_insert_eq.
  - exact Hne.
  - apply lookup_insert_eq.
  - exact HNne.
  - rewrite HfN. exact HGne.
  - exact Hgr.
  - rewrite HfN, HG. exact HNne.
Qed.

Lemma u64_mul_small (a b : N) : (a * b < 2 ^ 64)%N -> u64_mul a b = (a * b)%N.
Proof. intros H. unfold u64_mul. apply N.mod_small. exact H. Qed.

(** Without overflow, [RulePeriod::get_duration] converts each unit to
    seconds, and [get_validated_duration] accepts [Seconds n] from 120 on,
    [Minutes n] from 2 on, and [Hours], [Days] and [Weeks] from 1 on. *)
Theorem RulePeriod_durations_without_overflow (n : N) :
  (n * 604800 < 2 ^ 64)%N ->
  RulePeriod_get_duration (Seconds n) = n /\
  RulePeriod_get_duration (Minutes n) = (n * 60)%N /\
  RulePeriod_get_duration (Hours n) = (n * 3600)%N /\
  RulePeriod_get_duration (Days n) = (n * 86400)%N /\
  RulePeriod_get_duration (Weeks n) = (n * 604800)%N /\
  is_ok (RulePeriod_get_validated_duration (Seconds n)) = (120 <=? n)%N /\
  is_ok (RulePeriod_get_validated_duration (Minutes n)) = (2 <=? n)%N /\
  is_ok (RulePeriod_get_validated_duration (Hours n)) = (1 <=? n)%N /\
  is_ok (RulePeriod_get_validated_duration (Days n)) = (1 <=? n)%N /\
  is_ok (RulePeriod_get_validated_duration (Weeks n)) = (1 <=? n)%N.
Proof.
  intros Hn.
  assert (Hs : RulePeriod_get_duration (Seconds n) = n) by reflexivity.
  assert (Hm : RulePeriod_get_duration (Minutes n) = (n * 60)%N)
    by (simpl; apply u64_mul_small; lia).
  assert (Hh : RulePeriod_get_duration (Hours n) = (n * 3600)%N).
  { simpl. rewrite (u64_mul_small n) by lia. rewrite u64_mul_small by lia. lia. }
  assert (Hd : RulePeriod_get_duration (Days n) = (n * 86400)%N).
  { simpl. rewrite (u64_mul_small n) by lia. rewrite (u64_mul_small (n * 24)) by lia.
    rewrite u64_mul_small by lia. lia. }
  assert (Hw : RulePeriod_get_duration (Weeks n) = (n * 604800)%N).
  { simpl. rewrite (u64_mul_small n) by lia. rewrite (u64_mul_small (n * 7)) by lia.
    rewrite (u64_mul_small (n * 7 * 24)) by lia. rewrite u64_mul_small by lia. lia. }
  assert (Hv : forall p, is_ok (RulePeriod_get_validated_duration p) =
                         (120 <=? RulePeriod_get_duration p)%N).
  { intros p. unfold RulePeriod_get_validated_duration, MIN_RULE_PERIOD_DURATION_SECS. cbv zeta.
    destruct (N.ltb_spec (RulePeriod_get_duration p) 120);
      destruct (N.leb_spec 120 (RulePeriod_get_duration p)); simpl; try reflexivity; lia. }
  rewrite !Hv, Hs, Hm, Hh, Hd, Hw.
  repeat split; try assumption;
    apply Bool.eq_true_iff_eq; rewrite !N.leb_le; lia.
Qed.

(** [RulePeriod::get_min_nanos_timestamp] fails exactly when the period is
    under 120 seconds; otherwise, when the period in nanoseconds fits and
    does not exceed [now_nanos], it returns [now_nanos] minus the period. *)
Theorem RulePeriod_get_min_nanos_timestamp_ok (p : RulePeriod) (now_nanos : N) :
  is_ok (RulePeriod_get_min_nanos_timestamp p now_nanos) = (120 <=? RulePeriod_get_duration p)%N /\
  ((120 <= RulePeriod_get_duration p)%N ->
   (RulePeriod_get_duration p * 1000000000 <= now_nanos < 2 ^ 64)%N ->
   RulePeriod_get_min_nanos_timestamp p now_nanos =
     Ok (now_nanos - RulePeriod_get_duration p * 1000000000)%N).
Proof.
  unfold RulePeriod_get_min_nanos_timestamp, RulePeriod_get_validated_duration,
    MIN_RULE_PERIOD_DURATION_SECS. cbv zeta.
  destruct (N.ltb_spec (RulePeriod_get_duration p) 120) as [Hl|Hl].
  - split; [symmetry; apply N.leb_gt; exact Hl|]. intros H. lia.
  - split; [symmetry; apply N.leb_le; exact Hl|]. intros _ [H1 H2].
    rewrite N.mod_small by lia. unfold u64_sub.
    rewrite (proj2 (N.leb_le _ _) H1). reflexivity.
Qed.

End RulesMore.

Section PlaceOrderMore.
Context `{Serialize OrderTrackingItem} `{Deserialize OrderTrackingItem}.
Context {Payload : Type} `{EqDecision Payload}.
Context (payload_period : Payload -> RulePeriod).
Context (payload_matches_order : Payload -> TopNEntry OrderTrackingItem -> bool).
Context (payload_validate : Payload -> TopNEntry OrderTrackingItem -> result unit Error).

(** The checks of [place_order] leave the world exactly as
    [add_order_tracking_item] left it, so an order the rules reject stays
    in its symbol's history; a tracking error is returned unchanged; and
    after tracking the result is the result of [validate_order_request]:
    the "Expected some validated rule" error can never occur, since a
    successful validation always returns a rule. *)
Theorem place_order_checks_spec (env : Env) (rules_map : gmap string (list (@Rule Payload)))
    (order : OrderRequest) (w : World) :
  let tracked := add_order_tracking_item env order w in
  let placed := place_order_checks payload_period payload_matches_order payload_validate
                  env rules_map order w in
  placed.2 = tracked.2 /\
  (forall e, tracked.1 = Err e -> placed.1 = Err e) /\
  (forall top_n_entry, tracked.1 = Ok top_n_entry ->
     placed.1 = validate_order_request payload_period payload_matches_order payload_validate
                  rules_map order.(Account.symbol) top_n_entry).
Proof.
  intros tracked placed. unfold placed, place_order_checks. fold tracked.
  destruct tracked as [[entry|e] w']; simpl.
  - pose proof (validate_order_request_not_nil payload_period payload_matches_order payload_validate
                  rules_map order.(Account.symbol) entry) as Hnn.
    destruct (validate_order_request payload_period payload_matches_order payload_validate
                rules_map order.(Account.symbol) entry) as [[|v vs]|e] eqn:Ev; simpl.
    + contradiction.
    + split; [reflexivity|]. split; [discriminate|]. intros ? [= <-]. rewrite Ev. reflexivity.
    + split; [reflexivity|]. split; [discriminate|]. intros ? [= <-]. rewrite Ev. reflexivity.
  - split; [reflexivity|]. split; [intros ? [= <-]; reflexivity|discriminate].
Qed.

End PlaceOrderMore.

(* ------------------------------------------------------------------ *)
(** ** Instances of the further properties *)

Lemma TopN_insert_keeps_new_entry_iff_witness :
  In (mkTopNEntry 3 0)
     (TopN_insert (mkTopN [mkTopNEntry 1 3; mkTopNEntry 2 1] 2) (mkTopNEntry 3 (0 : nat))).(set).
Proof.
  refine (proj2 (TopN_insert_keeps_new_entry_iff
                   (mkTopN [mkTopNEntry 1 3; mkTopNEntry 2 1] 2) (mkTopNEntry 3 0) _) _).
  - repeat constructor.
  - right. right. exists (mkTopNEntry 1 3). split; [left; reflexivity|reflexivity].
Defined.

Lemma TopN_get_all_split_witness :
  let h := mkTopN [mkTopNEntry 1 (3 : nat); mkTopNEntry 2 1; mkTopNEntry 4 0] 5 in
  TopN_get_all h = TopN_get_lte_timestamp h 2 ++ TopN_get_gte_timestamp h (2 + 1).
Proof. intros h. apply (TopN_get_all_split h 2); [lia|repeat constructor]. Defined.

Lemma TopN_insert_equal_entry_ignored_witness :
  let e := mkTopNEntry 5 (mkOrderTrackingItem (mkDecimal 2 0) (mkDecimal 1 0) Buy "u-5") in
  let e' := mkTopNEntry 5 (mkOrderTrackingItem (mkDecimal 2 0) (mkDecimal 10 1) Buy "u-5") in
  e <> e' /\ TopN_insert (mkTopN [e] 3) e' = mkTopN [e] 3.
Proof.
  intros e e'. split; [unfold e, e'; discriminate|].
  apply (TopN_insert_equal_entry_ignored (mkTopN [e] 3) e e'); vm_compute; reflexivity.
Defined.

Section ExtraWitnesses.
#[local] Existing Instances stub_item_ser stub_item_de.

Lemma add_item_frame_witness :
  let w := mkWorld {[ "ETHUSDT" := mkTopN [] 3000 ]} {[ "notes.txt" := FileText None ]} in
  let req := mkOrderRequest "BTCUSDT" Buy (Some (mkDecimal 1 0)) (Some (mkDecimal 2 0)) in
  let r := add_order_tracking_item (mkEnv (Some 5%N) "u" WriteOk) req w in
  r.2.(tracking) !! "ETHUSDT" = w.(tracking) !! "ETHUSDT" /\
  r.2.(files) !! "notes.txt" = w.(files) !! "notes.txt".
Proof.
  intros w req r. apply add_item_frame; vm_compute; discriminate.
Defined.

Lemma add_item_registers_symbol_witness :
  let w := mkWorld ∅ {[ get_file_path "BTCUSDT" := FileUnreadable ]} in
  let req := mkOrderRequest "BTCUSDT" Buy (Some (mkDecimal 1 0)) (Some (mkDecimal 2 0)) in
  get_all_tracking_items (add_order_tracking_item (mkEnv (Some 5%N) "u" WriteOk) req w).2 "BTCUSDT"
  = Some [].
Proof.
  intros w req.
  refine (proj2 (add_item_registers_symbol (mkEnv (Some 5%N) "u" WriteOk) req w 5
                   (mkDecimal 1 0) (mkDecimal 2 0) eq_refl eq_refl eq_refl) eq_refl _).
  exists (Msg "Failed to read top n from file: " None). vm_compute. reflexivity.
Defined.

Lemma add_item_ok_persists_history_witness :
  let w := mkWorld ∅ ∅ in
  let req := mkOrderRequest "BTCUSDT" Buy (Some (mkDecimal 1 0)) (Some (mkDecimal 2 0)) in
  let e := mkTopNEntry 5 (mkOrderTrackingItem (mkDecimal 1 0) (mkDecimal 2 0) Buy "u-5") in
  let r := add_order_tracking_item (mkEnv (Some 5%N) "u" WriteOk) req w in
  exists h, r.2.(tracking) !! "BTCUSDT" = Some h /\
    r.2.(files) !! get_file_path "BTCUSDT" = Some (FileText (Some (btreeset_to_json h.(set)))) /\
    exists h0, h = TopN_insert h0 e.
Proof.
  intros w req e r. apply (add_item_ok_persists_history _ req w e). vm_compute. reflexivity.
Defined.

End ExtraWitnesses.

Lemma set_rules_for_symbol_other_symbols_witness :
  let m : gmap string (list (@Rule RulePeriod)) :=
    <[ "ETHUSDT" := [Global (Days 1)] ]> {[ "BTCUSDT" := [Global (Weeks 52)] ]} in
  (set_rules_for_symbol m "BTCUSDT" [PerGrid (Hours 2)]).2 !! "ETHUSDT" = Some [Global (Days 1)].
Proof.
  intros m. rewrite (set_rules_for_symbol_other_symbols m "BTCUSDT" [PerGrid (Hours 2)] "ETHUSDT")
    by discriminate.
  vm_compute. reflexivity.
Defined.

Lemma set_rules_for_symbol_failure_state_witness :
  (set_rules_for_symbol (∅ : gmap string (list (@Rule RulePeriod))) "BTCUSDT" [PerGrid (Hours 2)]).2 = ∅ \/
  ((∅ : gmap string (list (@Rule RulePeriod))) !! "BTCUSDT" = None /\ [PerGrid (Hours 2)] <> [] /\
   (set_rules_for_symbol ∅ "BTCUSDT" [PerGrid (Hours 2)]).2 = <[ "BTCUSDT" := [] ]> ∅).
Proof.
  apply (set_rules_for_symbol_failure_state ∅ "BTCUSDT" [PerGrid (Hours 2)]
           (Msg "No rules found for symbol BTCUSDT. Should be hardcoded before calling this function" None)).
  vm_compute. reflexivity.
Defined.

Lemma set_rules_for_symbol_unknown_then_validate_witness :
  validate_order_request (fun p => p) (fun _ _ => true) (fun _ _ => Ok tt)
    (set_rules_for_symbol (∅ : gmap string (list (@Rule RulePeriod))) "BTCUSDT" [PerGrid (Hours 2)]).2
    "BTCUSDT" sample_entry
  = Err (ExpectedOrdersRuleViolated ("No global expected order requests rules found for symbol " ++ "BTCUSDT")).
Proof.
  refine (proj2 (set_rules_for_symbol_unknown_then_validate (fun p => p) (fun _ _ => true)
                   (fun _ _ => Ok tt) ∅ "BTCUSDT" [PerGrid (Hours 2)] sample_entry _ _));
    [discriminate|reflexivity].
Defined.

Lemma set_rules_for_symbol_idempotent_witness :
  let m : gmap string (list (@Rule RulePeriod)) :=
    {[ "BTCUSDT" := [Global (Weeks 52); PerGrid (Hours 2)] ]} in
  let rules := [PerGrid (Hours 3); PerGrid (Days 1); PerGrid (Hours 3)] in
  set_rules_for_symbol (set_rules_for_symbol m "BTCUSDT" rules).2 "BTCUSDT" rules
  = (Ok tt, (set_rules_for_symbol m "BTCUSDT" rules).2).
Proof. intros m rules. apply set_rules_for_symbol_idempotent. vm_compute. reflexivity. Defined.

Lemma RulePeriod_durations_without_overflow_witness :
  RulePeriod_get_duration (Days 2) = (2 * 86400)%N /\
  is_ok (RulePeriod_get_validated_duration (Minutes 2)) = (2 <=? 2)%N.
Proof.
  destruct (RulePeriod_durations_without_overflow 2 ltac:(lia))
    as (_ & _ & _ & Hd & _ & _ & Hm & _).
  split; [exact Hd|exact Hm].
Defined.

Lemma RulePeriod_get_min_nanos_timestamp_ok_witness :
  RulePeriod_get_min_nanos_timestamp (Minutes 2) 1000000000000 =
    Ok (1000000000000 - RulePeriod_get_duration (Minutes 2) * 1000000000)%N.
Proof.
  apply (proj2 (RulePeriod_get_min_nanos_timestamp_ok (Minutes 2) 1000000000000)).
  - vm_compute. congruence.
  - split; vm_compute; congruence.
Defined.
